(** * AI Interview Prep Coach: the session orchestrator

    A shallow embedding of [src/types.ts], of the two service functions of
    [services/geminiService.ts] and of the state, handlers and effects of
    the [App] component of [src/App.tsx], followed by the properties of the
    orchestrator: speaking pace, transcript accumulation, the interview
    phase machine and the feedback pipeline.

    Conventions.
    - A JavaScript [number] is an IEEE-754 binary64 value: Rocq's primitive
      [float].  Array indices, ids and lengths are [nat]; where the source
      subtracts from a length the comparison is done in [Z].
    - A JavaScript string is a [string]; only equality with [''], [+] and
      [split(' ')] are used, and these do not depend on the encoding.
    - An optional field ([answer?: string]) is an [option].
    - A promise that rejects (a [throw] inside an [async] function) is a
      [result] carrying the error.
    - React state is one record; each [setX] call is a record update and a
      handler is a function on that record.  The code after an [await]
      is a continuation that the event loop resumes later. *)

From Stdlib Require Import ZArith String Ascii List Bool Lia Sorted.
From Stdlib Require Import Floats.PrimFloat Floats.SpecFloat Floats.FloatOps.
From Stdlib Require Uint63.
From stdpp Require Import base list strings.

Local Open Scope string_scope.
Local Open Scope list_scope.

(** ** JavaScript values *)

Module JS.

Definition number := float.

(** [ToBoolean] on a number: [0], [-0] and [NaN] are falsy. *)
Definition truthy_number (x : number) : bool :=
  negb (PrimFloat.is_zero x || PrimFloat.is_nan x).

(** [ToBoolean] on a string: only [''] is falsy. *)
Definition truthy_string (s : string) : bool :=
  match s with
  | EmptyString => false
  | String _ _ => true
  end.

(** [ToBoolean] on an optional value: [undefined] and [null] are falsy. *)
Definition truthy_opt {A} (truthy : A -> bool) (o : option A) : bool :=
  match o with
  | Some a => truthy a
  | None => false
  end.

(** [s.split(' ')]: the pieces between single spaces; [''.split(' ')] is
    [['']], and a trailing space yields a trailing empty piece. *)
Fixpoint split_space (s : string) : list string :=
  match s with
  | EmptyString => [EmptyString]
  | String c rest =>
      if Ascii.eqb c " "%char then EmptyString :: split_space rest
      else match split_space rest with
           | w :: ws => String c w :: ws
           | [] => [String c EmptyString]
           end
  end.

(** An integer as a number; exact for magnitudes below [2^53], which
    covers array lengths and millisecond timestamps. *)
Definition of_Z (z : Z) : number :=
  match z with
  | Z0 => zero
  | Zpos _ => of_uint63 (Uint63.of_Z z)
  | Zneg p => opp (of_uint63 (Uint63.of_Z (Zpos p)))
  end.

Definition of_nat (n : nat) : number := of_Z (Z.of_nat n).

(** [Math.round]: the closest integer, ties towards +infinity; [NaN],
    the infinities and the zeros are returned unchanged, and a negative
    argument that rounds to zero gives [-0].  A finite non-zero float is
    [(-1)^s * m * 2^e]; for [e >= 0] it is already integral, otherwise
    the result is [floor (x + 1/2)] computed exactly over [Z]. *)
Definition Math_round (x : number) : number :=
  match Prim2SF x with
  | S754_finite s m e =>
      if (0 <=? e)%Z then x
      else
        let n := if s then Zneg m else Zpos m in
        let r := ((2 * n + 2 ^ (- e)) / 2 ^ (- e + 1))%Z in
        if (r =? 0)%Z then (if s then neg_zero else zero) else of_Z r
  | _ => x
  end.

End JS.

Import JS.

(** ** [src/types.ts] *)

Inductive InterviewState :=
| NOT_STARTED
| GETTING_JOB_DESC
| GENERATING_QUESTIONS
| INTERVIEWING
| AWAITING_FEEDBACK
| REVIEWING.

Record Scored := { score : number; scored_feedback : string }.

Record StarMethod := {
  star_score : number; star_feedback : string;
  situation : bool; task : bool; action : bool; result_ : bool }.

Record ClarityConfidence := {
  clarity_score : number; clarity_feedback : string;
  powerWords : list string; passiveWords : list string }.

Record Pace := { wpm : number; pace_feedback : string }.

Record FillerWords := {
  count : number; words : list string; filler_feedback : string }.

Record Feedback := {
  relevance : Scored;
  starMethod : StarMethod;
  clarityConfidence : ClarityConfidence;
  pace : Pace;
  fillerWords : FillerWords;
  overallFeedback : string }.

Record Question := {
  id : nat;
  text : string;
  answer : option string;
  feedback : option Feedback;
  audioDuration : option number }.

(** [{ ...q, answer: a, audioDuration: d }] *)
Definition with_answer (q : Question) (a : string) (d : number) : Question :=
  {| id := id q; text := text q; answer := Some a;
     feedback := feedback q; audioDuration := Some d |}.

(** [q.feedback = f] *)
Definition with_feedback (q : Question) (f : Feedback) : Question :=
  {| id := id q; text := text q; answer := answer q;
     feedback := Some f; audioDuration := audioDuration q |}.

(** ** [services/geminiService.ts] *)

(** What an awaited service call can throw: the guard of
    [getAnswerFeedback], or anything raised by the remote call or by
    [JSON.parse] on its response. *)
Inductive Error :=
| AnswerIsMissing
| AnalysisFailure (message : string).

Inductive result (A : Type) :=
| Ok (a : A)
| Err (e : Error).
Arguments Ok {A} a.
Arguments Err {A} e.

(** The prompt of [getAnswerFeedback] is a fixed template with three
    interpolated values; the record keeps the three values. *)
Record Prompt := {
  prompt_wordsPerMinute : number;
  prompt_question : string;
  prompt_answer : string }.

(** The [wordsPerMinute] expression (lines 90-92). *)
Definition wordsPerMinute (question : Question) : number :=
  match audioDuration question, answer question with
  | Some d, Some a =>
      if truthy_number d && truthy_string a
      then Math_round (of_nat (length (split_space a)) / (d / 60))%float
      else 150%float
  | _, _ => 150%float
  end.

(** The synchronous part of [getAnswerFeedback] (lines 88-102): the guard,
    the pace and the prompt handed to [ai.models.generateContent]. *)
Definition getAnswerFeedback_prompt (question : Question) : result Prompt :=
  match answer question with
  | Some a =>
      if negb (truthy_string a) then Err AnswerIsMissing
      else Ok {| prompt_wordsPerMinute := wordsPerMinute question;
                 prompt_question := text question;
                 prompt_answer := a |}
  | None => Err AnswerIsMissing
  end.

(** [getAnswerFeedback] (lines 87-115).  [generateContent] stands for the
    remote call followed by [JSON.parse(response.text.trim())]. *)
Definition getAnswerFeedback
    (generateContent : Prompt -> result Feedback) (question : Question)
    : result Feedback :=
  match getAnswerFeedback_prompt question with
  | Ok prompt => generateContent prompt
  | Err e => Err e
  end.

(** ** [src/App.tsx]: state and synchronous handlers *)

Definition PRESET_QUESTIONS : list string :=
  [ "Tell me about yourself.";
    "What are your biggest strengths?";
    "What are your biggest weaknesses?";
    "Tell me about a time you faced a challenge at work and how you handled it.";
    "Where do you see yourself in five years?" ].

(** The [useState] cells of [App] (lines 77-87) and whether
    [recognitionRef.current] is non-null, which is decided once at mount
    (lines 113-118). *)
Record State := {
  interviewState : InterviewState;
  jobDescription : string;
  questions : list Question;
  currentQuestionIndex : nat;
  isListening : bool;
  isSpeaking : bool;
  interimTranscript : string;
  finalTranscript : string;
  recordingStartTime : option Z;
  recognitionRef : bool }.

Definition setInterviewState (v : InterviewState) (s : State) : State :=
  {| interviewState := v; jobDescription := jobDescription s;
     questions := questions s; currentQuestionIndex := currentQuestionIndex s;
     isListening := isListening s; isSpeaking := isSpeaking s;
     interimTranscript := interimTranscript s;
     finalTranscript := finalTranscript s;
     recordingStartTime := recordingStartTime s;
     recognitionRef := recognitionRef s |}.

Definition setJobDescription (v : string) (s : State) : State :=
  {| interviewState := interviewState s; jobDescription := v;
     questions := questions s; currentQuestionIndex := currentQuestionIndex s;
     isListening := isListening s; isSpeaking := isSpeaking s;
     interimTranscript := interimTranscript s;
     finalTranscript := finalTranscript s;
     recordingStartTime := recordingStartTime s;
     recognitionRef := recognitionRef s |}.

Definition setQuestions (v : list Question) (s : State) : State :=
  {| interviewState := interviewState s; jobDescription := jobDescription s;
     questions := v; currentQuestionIndex := currentQuestionIndex s;
     isListening := isListening s; isSpeaking := isSpeaking s;
     interimTranscript := interimTranscript s;
     finalTranscript := finalTranscript s;
     recordingStartTime := recordingStartTime s;
     recognitionRef := recognitionRef s |}.

Definition setCurrentQuestionIndex (v : nat) (s : State) : State :=
  {| interviewState := interviewState s; jobDescription := jobDescription s;
     questions := questions s; currentQuestionIndex := v;
     isListening := isListening s; isSpeaking := isSpeaking s;
     interimTranscript := interimTranscript s;
     finalTranscript := finalTranscript s;
     recordingStartTime := recordingStartTime s;
     recognitionRef := recognitionRef s |}.

Definition setIsListening (v : bool) (s : State) : State :=
  {| interviewState := interviewState s; jobDescription := jobDescription s;
     questions := questions s; currentQuestionIndex := currentQuestionIndex s;
     isListening := v; isSpeaking := isSpeaking s;
     interimTranscript := interimTranscript s;
     finalTranscript := finalTranscript s;
     recordingStartTime := recordingStartTime s;
     recognitionRef := recognitionRef s |}.

Definition setIsSpeaking (v : bool) (s : State) : State :=
  {| interviewState := interviewState s; jobDescription := jobDescription s;
     questions := questions s; currentQuestionIndex := currentQuestionIndex s;
     isListening := isListening s; isSpeaking := v;
     interimTranscript := interimTranscript s;
     finalTranscript := finalTranscript s;
     recordingStartTime := recordingStartTime s;
     recognitionRef := recognitionRef s |}.

Definition setInterimTranscript (v : string) (s : State) : State :=
  {| interviewState := interviewState s; jobDescription := jobDescription s;
     questions := questions s; currentQuestionIndex := currentQuestionIndex s;
     isListening := isListening s; isSpeaking := isSpeaking s;
     interimTranscript := v;
     finalTranscript := finalTranscript s;
     recordingStartTime := recordingStartTime s;
     recognitionRef := recognitionRef s |}.

Definition setFinalTranscript (v : string) (s : State) : State :=
  {| interviewState := interviewState s; jobDescription := jobDescription s;
     questions := questions s; currentQuestionIndex := currentQuestionIndex s;
     isListening := isListening s; isSpeaking := isSpeaking s;
     interimTranscript := interimTranscript s;
     finalTranscript := v;
     recordingStartTime := recordingStartTime s;
     recognitionRef := recognitionRef s |}.

Definition setRecordingStartTime (v : option Z) (s : State) : State :=
  {| interviewState := interviewState s; jobDescription := jobDescription s;
     questions := questions s; currentQuestionIndex := currentQuestionIndex s;
     isListening := isListening s; isSpeaking := isSpeaking s;
     interimTranscript := interimTranscript s;
     finalTranscript := finalTranscript s;
     recordingStartTime := v;
     recognitionRef := recognitionRef s |}.

(** The state at mount; [supported] tells whether the browser has a
    speech recognition engine. *)
Definition initialState (supported : bool) : State :=
  {| interviewState := NOT_STARTED; jobDescription := "";
     questions := []; currentQuestionIndex := 0;
     isListening := false; isSpeaking := false;
     interimTranscript := ""; finalTranscript := "";
     recordingStartTime := None; recognitionRef := supported |}.

(** *** Speech recognition events (lines 8-29, 124-138) *)

Record SpeechRecognitionResult := {
  isFinal : bool;
  transcript : string   (* [result[0].transcript] *) }.

Record SpeechRecognitionEvent := {
  resultIndex : nat;
  results : list SpeechRecognitionResult }.

(** One iteration of the loop of [onresult], on the pair
    [(interim, final)]. *)
Definition onresult_body (acc : string * string) (r : SpeechRecognitionResult)
    : string * string :=
  if isFinal r then (fst acc, snd acc +:+ transcript r)
  else (fst acc +:+ transcript r, snd acc).

(** [recognition.onresult] (lines 124-138): the loop runs over
    [results[resultIndex .. length-1]]. *)
Definition onresult (event : SpeechRecognitionEvent) (s : State) : State :=
  let acc := fold_left onresult_body
               (drop (resultIndex event) (results event)) ("", "") in
  let interim := fst acc in
  let final := snd acc in
  let s1 := setInterimTranscript interim s in
  if truthy_string final
  then setFinalTranscript (finalTranscript s1 +:+ final +:+ ". ") s1
  else s1.

(** [startListening] (lines 147-155); [now] is the value of [Date.now()]. *)
Definition startListening (now : Z) (s : State) : State :=
  if recognitionRef s then
    setIsListening true
      (setRecordingStartTime (Some now)
        (setInterimTranscript "" (setFinalTranscript "" s)))
  else s.

(** [duration] of [stopListening] (line 162): a [null] or zero start time
    is falsy. *)
Definition duration (recordingStartTime : option Z) (endTime : Z) : number :=
  match recordingStartTime with
  | Some t0 =>
      if (t0 =? 0)%Z then 0%float
      else (JS.of_Z (endTime - t0) / 1000)%float
  | None => 0%float
  end.

(** [stopListening] (lines 157-172); [now] is the value of [Date.now()].
    The comparison with [questions.length - 1] is done in [Z]: for an
    empty list the right-hand side is [-1]. *)
Definition stopListening (now : Z) (s : State) : State :=
  if recognitionRef s then
    let s1 := setIsListening false s in
    let d := duration (recordingStartTime s) now in
    let s2 :=
      setQuestions
        (imap (fun i q =>
                 if Nat.eqb i (currentQuestionIndex s)
                 then with_answer q (finalTranscript s) d else q)
              (questions s1)) s1 in
    if (Z.of_nat (currentQuestionIndex s)
          <? Z.of_nat (length (questions s)) - 1)%Z
    then setCurrentQuestionIndex (currentQuestionIndex s2 + 1) s2
    else setInterviewState AWAITING_FEEDBACK s2
  else s.

(** [resetInterview] (lines 225-232). *)
Definition resetInterview (s : State) : State :=
  setInterimTranscript ""
    (setFinalTranscript ""
      (setCurrentQuestionIndex 0
        (setQuestions []
          (setJobDescription ""
            (setInterviewState NOT_STARTED s))))).

(** ** [src/App.tsx]: asynchronous functions *)

(** An [async] function of [App]: the state updates it performs and the
    promises it awaits, each followed by its continuation.  An [await]
    hands control back to the event loop; the continuation receives the
    settled promise (a rejection is what the enclosing [try] catches). *)
Inductive Async :=
| Done
| SetInterviewState (v : InterviewState) (k : Async)
| SetQuestions (v : list Question) (k : Async)
| SetCurrentQuestionIndex (v : nat) (k : Async)
| AwaitQuestions (jobDescription : string)
    (k : result (list string) -> Async)   (* [await generateQuestionsFromJD(jd)] *)
| AwaitFeedback (question : Question)
    (k : result Feedback -> Async).       (* [await getAnswerFeedback(q)] *)

(** [qs.map((q, i) => ({ id: i, text: q }))] (lines 182 and 188). *)
Definition toQuestions (qs : list string) : list Question :=
  imap (fun i q => {| id := i; text := q; answer := None;
                      feedback := None; audioDuration := None |}) qs.

(** [startInterview] (lines 175-192), called with the [jobDescription] of
    the render it was created in.  The [await] is only in the branch with
    a job description; [console.error] and [alert] of the [catch] block
    do not touch the state. *)
Definition startInterview (jobDescription : string) : Async :=
  SetInterviewState GENERATING_QUESTIONS
    (if truthy_string jobDescription then
       AwaitQuestions jobDescription (fun r =>
         match r with
         | Ok generatedQs =>
             SetQuestions (toQuestions generatedQs)
               (SetCurrentQuestionIndex 0
                 (SetInterviewState INTERVIEWING Done))
         | Err _ =>
             SetQuestions (toQuestions PRESET_QUESTIONS)
               (SetCurrentQuestionIndex 0
                 (SetInterviewState INTERVIEWING Done))
         end)
     else
       SetQuestions (toQuestions PRESET_QUESTIONS)
         (SetCurrentQuestionIndex 0
           (SetInterviewState INTERVIEWING Done))).

(** The [for] loop of [fetchFeedback] (lines 207-217) from iteration [i],
    with [n = updatedQuestions.length - i] iterations left, and the
    [setInterviewState] after it (line 218).  The objects of
    [updatedQuestions] are written by this loop only, and each write is
    followed at once by [setQuestions([...updatedQuestions])], so the
    array is kept as a value. *)
Fixpoint fetchFeedback_loop (n i : nat) (updatedQuestions : list Question)
    : Async :=
  match n with
  | 0 => SetInterviewState REVIEWING Done
  | S n' =>
      match updatedQuestions !! i with
      | Some q =>
          if truthy_opt truthy_string (answer q) then
            AwaitFeedback q (fun r =>
              match r with
              | Ok feedback =>
                  let updated :=
                    <[i := with_feedback q feedback]> updatedQuestions in
                  SetQuestions updated (fetchFeedback_loop n' (S i) updated)
              | Err _ =>   (* [console.error] *)
                  fetchFeedback_loop n' (S i) updatedQuestions
              end)
          else fetchFeedback_loop n' (S i) updatedQuestions
      | None => fetchFeedback_loop n' (S i) updatedQuestions
      end
  end.

(** [fetchFeedback] (lines 203-219), called with the [questions] of the
    render whose effect starts it. *)
Definition fetchFeedback (questions : list Question) : Async :=
  fetchFeedback_loop (length questions) 0 questions.

(** Running an asynchronous function up to its next [await] (or its end):
    the state updates on the way are applied in order. *)
Fixpoint run (t : Async) (s : State) : State * Async :=
  match t with
  | SetInterviewState v k => run k (setInterviewState v s)
  | SetQuestions v k => run k (setQuestions v s)
  | SetCurrentQuestionIndex v k => run k (setCurrentQuestionIndex v s)
  | Done | AwaitQuestions _ _ | AwaitFeedback _ _ => (s, t)
  end.

(** Running an asynchronous function to its end against given services.
    [generateContent n] answers the [n]-th awaited call, and
    [meanwhile n] is what other handlers do to the state while that call is
    pending.  The second component lists the awaited [getAnswerFeedback]
    calls with their outcomes, in order. *)
Section Exec.

Variable generateQuestionsFromJD : string -> result (list string).
Variable generateContent : nat -> Prompt -> result Feedback.
Variable meanwhile : nat -> State -> State.

Fixpoint exec (t : Async) (n : nat) (s : State)
    : State * list (Question * result Feedback) :=
  match t with
  | Done => (s, [])
  | SetInterviewState v k => exec k n (setInterviewState v s)
  | SetQuestions v k => exec k n (setQuestions v s)
  | SetCurrentQuestionIndex v k => exec k n (setCurrentQuestionIndex v s)
  | AwaitQuestions jd k =>
      exec (k (generateQuestionsFromJD jd)) (S n) (meanwhile n s)
  | AwaitFeedback q k =>
      let r := getAnswerFeedback (generateContent n) q in
      let '(s', log) := exec (k r) (S n) (meanwhile n s) in
      (s', (q, r) :: log)
  end.

End Exec.

(** No other handler runs while a call is pending. *)
Definition undisturbed (n : nat) (s : State) : State := s.

(** ** The running application *)

#[global] Instance InterviewState_eq_dec : EqDecision InterviewState.
Proof. solve_decision. Defined.

(** The state and the asynchronous functions suspended at an [await]. *)
Record Config := {
  state : State;
  tasks : list Async }.

Definition initialConfig (supported : bool) : Config :=
  {| state := initialState supported; tasks := [] |}.

(** Calling an asynchronous function: it runs up to its first [await]
    and, unless it has ended, stays suspended. *)
Definition spawn (t : Async) (c : Config) : Config :=
  let '(s, t') := run t (state c) in
  {| state := s;
     tasks := match t' with Done => tasks c | _ => tasks c ++ [t'] end |}.

(** The effect on [interviewState] (lines 201-223): after a render in
    which [interviewState] changed to [AWAITING_FEEDBACK], call
    [fetchFeedback] on the [questions] of that render. *)
Definition feedbackEffect (before : InterviewState) (c : Config) : Config :=
  if decide (interviewState (state c) = AWAITING_FEEDBACK) then
    if decide (before = AWAITING_FEEDBACK) then c
    else spawn (fetchFeedback (questions (state c))) c
  else c.

(** A synchronous handler, followed by the effects of the render. *)
Definition update (f : State -> State) (c : Config) : Config :=
  feedbackEffect (interviewState (state c))
    {| state := f (state c); tasks := tasks c |}.

(** Resuming the [n]-th suspended function with continuation [t]. *)
Definition resume (n : nat) (t : Async) (c : Config) : Config :=
  let '(s, t') := run t (state c) in
  feedbackEffect (interviewState (state c))
    {| state := s;
       tasks := match t' with
                | Done => delete n (tasks c)
                | _ => <[n := t']> (tasks c)
                end |}.

(** What can happen to the application: the controls that [renderContent]
    (lines 235-386) offers in each phase, the callbacks of the speech
    engines, and the settling of an awaited promise. *)
Inductive Event :=
| ClickStartWithJobDescription                 (* line 243 *)
| ClickUseCommonQuestions                      (* line 246 *)
| ChangeJobDescription (value : string)        (* line 262 *)
| ClickGenerateQuestionsAndStart               (* line 264 *)
| ClickMicrophone (now : Z)                    (* lines 301-303 *)
| ClickStartNewInterview                       (* line 378 *)
| RecognitionResult (event : SpeechRecognitionEvent)   (* line 124 *)
| UtteranceStart                               (* line 103 *)
| UtteranceEnd                                 (* line 104 *)
| QuestionsSettled (n : nat) (outcome : result (list string))
| FeedbackSettled (n : nat) (response : result Feedback).

(** One event; [None] when the event cannot occur in that configuration
    (the control is not rendered or is disabled, or no such promise is
    pending).  The microphone button is part of a view that reads
    [questions[currentQuestionIndex].text] (lines 280-288), so it exists
    only when that question does. *)
Definition handle (e : Event) (c : Config) : option Config :=
  let s := state c in
  match e with
  | ClickStartWithJobDescription =>
      if decide (interviewState s = NOT_STARTED)
      then Some (update (setInterviewState GETTING_JOB_DESC) c) else None
  | ClickUseCommonQuestions =>
      if decide (interviewState s = NOT_STARTED)
      then Some (spawn (startInterview (jobDescription s)) c) else None
  | ChangeJobDescription v =>
      if decide (interviewState s = GETTING_JOB_DESC)
      then Some (update (setJobDescription v) c) else None
  | ClickGenerateQuestionsAndStart =>
      if decide (interviewState s = GETTING_JOB_DESC) then
        if truthy_string (jobDescription s)
        then Some (spawn (startInterview (jobDescription s)) c) else None
      else None
  | ClickMicrophone now =>
      if decide (interviewState s = INTERVIEWING) then
        match questions s !! currentQuestionIndex s with
        | Some _ =>
            if isSpeaking s then None
            else if isListening s then Some (update (stopListening now) c)
            else Some (update (startListening now) c)
        | None => None
        end
      else None
  | ClickStartNewInterview =>
      if decide (interviewState s = REVIEWING)
      then Some (update resetInterview c) else None
  | RecognitionResult ev =>
      if recognitionRef s then Some (update (onresult ev) c) else None
  | UtteranceStart => Some (update (setIsSpeaking true) c)
  | UtteranceEnd => Some (update (setIsSpeaking false) c)
  | QuestionsSettled n outcome =>
      match tasks c !! n with
      | Some (AwaitQuestions _ k) => Some (resume n (k outcome) c)
      | _ => None
      end
  | FeedbackSettled n response =>
      match tasks c !! n with
      | Some (AwaitFeedback q k) =>
          Some (resume n (k (getAnswerFeedback (fun _ => response) q)) c)
      | _ => None
      end
  end.

Inductive reachable : Config -> Prop :=
| reachable_init supported : reachable (initialConfig supported)
| reachable_step c e c' :
    reachable c -> handle e c = Some c' -> reachable c'.

(** A sequence of events from a configuration. *)
Fixpoint handle_all (es : list Event) (c : Config) : option Config :=
  match es with
  | [] => Some c
  | e :: es' =>
      match handle e c with
      | Some c' => handle_all es' c'
      | None => None
      end
  end.

(** ** Notions used in the statements *)

(** The test [q.answer] of the pipeline (line 208): present and not ['']. *)
Definition answered (q : Question) : bool :=
  truthy_opt truthy_string (answer q).

(** [answer] and [audioDuration] are both present or both absent. *)
Definition atomic (q : Question) : Prop :=
  is_Some (answer q) <-> is_Some (audioDuration q).

(** Concatenation of a list of fragments. *)
Definition join (l : list string) : string := foldr String.append "" l.

(** The transcripts of the results an event delivers (from [resultIndex]
    on) that are final, respectively not final, in order. *)
Definition final_fragments (event : SpeechRecognitionEvent) : list string :=
  map transcript (List.filter isFinal
                    (drop (resultIndex event) (results event))).

Definition interim_fragments (event : SpeechRecognitionEvent) : list string :=
  map transcript (List.filter (fun r => negb (isFinal r))
                    (drop (resultIndex event) (results event))).

(** What one event adds to the final-transcript buffer. *)
Definition final_chunk (event : SpeechRecognitionEvent) : string :=
  if truthy_string (join (final_fragments event))
  then join (final_fragments event) +:+ ". " else "".

(** Reading of "each final fragment is terminated with a delimiter": the
    buffer after appending the fragments one by one, each followed by
    [". "]. *)
Definition append_each_terminated (prev : string) (fragments : list string)
    : string :=
  fold_left (fun buffer f => buffer +:+ f +:+ ". ") fragments prev.

(** Delivering a sequence of recognition events. *)
Definition onresults (events : list SpeechRecognitionEvent) (s : State)
    : State :=
  fold_left (fun s event => onresult event s) events s.

(** A question as [startInterview] creates it, then answered. *)
Definition example_question (i : nat) (a : option string)
    (d : option number) : Question :=
  {| id := i; text := "Tell me about yourself."; answer := a;
     feedback := None; audioDuration := d |}.

Definition example_feedback : Feedback :=
  {| relevance := {| score := 4%float; scored_feedback := "On topic." |};
     starMethod := {| star_score := 3%float; star_feedback := "Add a result.";
                      situation := true; task := true;
                      action := true; result_ := false |};
     clarityConfidence := {| clarity_score := 4%float; clarity_feedback := "Clear.";
                             powerWords := ["led"]; passiveWords := [] |};
     pace := {| wpm := 120%float; pace_feedback := "A little slow." |};
     fillerWords := {| count := 0%float; words := []; filler_feedback := "None." |};
     overallFeedback := "Close with the outcome." |}.

(** An event that delivers two final fragments, and one that delivers
    only an interim fragment. *)
Definition two_finals_event : SpeechRecognitionEvent :=
  {| resultIndex := 0;
     results := [ {| isFinal := true; transcript := "a" |};
                  {| isFinal := true; transcript := "b" |} ] |}.

Definition interim_only_event : SpeechRecognitionEvent :=
  {| resultIndex := 0;
     results := [ {| isFinal := false; transcript := "well I" |} ] |}.

(** The state [startInterview] reaches without a job description: phase
    [INTERVIEWING] on the five preset questions. *)
Definition interviewing_state : State :=
  fst (run (startInterview "") (initialState true)).

(** *** Notions for the feedback pipeline *)

(** What settling a call does to its question (lines 210-215). *)
Definition attach (r : result Feedback) (q : Question) : Question :=
  match r with
  | Ok f => with_feedback q f
  | Err _ => q
  end.

(** The question list after the pipeline, when the answered questions are
    analysed in list order and [generateContent c] answers the first
    call. *)
Fixpoint process (generateContent : nat -> Prompt -> result Feedback)
    (c : nat) (qs : list Question) : list Question :=
  match qs with
  | [] => []
  | q :: rest =>
      if answered q
      then attach (getAnswerFeedback (generateContent c) q) q
             :: process generateContent (S c) rest
      else q :: process generateContent c rest
  end.

(** Every list that [t] can still pass to [setQuestions] satisfies [P]. *)
Fixpoint publishes (P : list Question -> Prop) (t : Async) : Prop :=
  match t with
  | Done => True
  | SetInterviewState _ k => publishes P k
  | SetCurrentQuestionIndex _ k => publishes P k
  | SetQuestions v k => P v /\ publishes P k
  | AwaitQuestions _ k => forall r, publishes P (k r)
  | AwaitFeedback _ k => forall r, publishes P (k r)
  end.

(** Three answered questions in phase [AWAITING_FEEDBACK], and a remote
    service whose second response is a failure. *)
Definition three_answered : State :=
  setInterviewState AWAITING_FEEDBACK
    (setQuestions
       [ example_question 0 (Some "I am a developer. ") (Some 2%float);
         example_question 1 (Some "I plan ahead. ") (Some 3%float);
         example_question 2 (Some "I talk fast. ") (Some 1%float) ]
       (initialState true)).

Definition second_call_fails (n : nat) (p : Prompt) : result Feedback :=
  if Nat.eqb n 1 then Err (AnalysisFailure "503") else Ok example_feedback.

Definition every_call_succeeds (n : nat) (p : Prompt) : result Feedback :=
  Ok example_feedback.

Definition no_generation (jd : string) : result (list string) :=
  Err (AnalysisFailure "offline").

Definition one_question_generated (jd : string) : result (list string) :=
  Ok ["Why this role?"].

(** *** Notions for the reachable configurations *)

(** The shape of a [fetchFeedback] in progress: it awaits feedback calls,
    publishes question lists, and ends by setting the phase to
    [REVIEWING]. *)
Fixpoint feedback_task (t : Async) : Prop :=
  match t with
  | SetInterviewState v k => v = REVIEWING /\ k = Done
  | SetQuestions _ k => feedback_task k
  | AwaitFeedback _ k => forall r, feedback_task (k r)
  | Done | SetCurrentQuestionIndex _ _ | AwaitQuestions _ _ => False
  end.

(** The shape of a suspended [startInterview]: however the generation
    call settles, it installs fresh questions, index 0 and the phase
    [INTERVIEWING]. *)
Definition questions_task (t : Async) : Prop :=
  match t with
  | AwaitQuestions _ k =>
      forall r, exists texts,
        k r = SetQuestions (toQuestions texts)
                (SetCurrentQuestionIndex 0
                  (SetInterviewState INTERVIEWING Done))
  | _ => False
  end.

(** Which functions are suspended in which phase. *)
Definition tasks_ok (c : Config) : Prop :=
  match interviewState (state c) with
  | GENERATING_QUESTIONS => exists t, tasks c = [t] /\ questions_task t
  | AWAITING_FEEDBACK =>
      exists q k, tasks c = [AwaitFeedback q k] /\
                  forall r, feedback_task (k r)
  | _ => tasks c = []
  end.

(** The index is within the list, or the list is empty and the index is
    0. *)
Definition index_ok (s : State) : Prop :=
  interviewState s = INTERVIEWING ->
  (questions s = [] /\ currentQuestionIndex s = 0) \/
  currentQuestionIndex s < length (questions s).

Definition invariant (c : Config) : Prop :=
  tasks_ok c /\
  index_ok (state c) /\
  Forall atomic (questions (state c)) /\
  Forall (publishes (Forall atomic)) (tasks c).

(** How the index may change in one step that ends in [INTERVIEWING]. *)
Definition index_step (c c' : Config) : Prop :=
  interviewState (state c') = INTERVIEWING ->
  if decide (interviewState (state c) = INTERVIEWING)
  then currentQuestionIndex (state c') = currentQuestionIndex (state c) \/
       currentQuestionIndex (state c') = currentQuestionIndex (state c) + 1
  else currentQuestionIndex (state c') = 0.


Definition first_answer_run : list Event :=
  [ ClickUseCommonQuestions;
    ClickMicrophone 1000;
    RecognitionResult
      {| resultIndex := 0;
         results := [ {| isFinal := true; transcript := "I write Rust" |} ] |};
    ClickMicrophone 3000 ].

Definition after_run (es : list Event) : Config :=
  match handle_all es (initialConfig true) with
  | Some c => c
  | None => initialConfig true
  end.

(** ** [src/App.tsx]: speech synthesis *)

(** The two fields of a [SpeechSynthesisVoice] that [speak] reads. *)
Record SpeechSynthesisVoice := {
  voice_name : string;
  voice_lang : string }.

(** [s.includes(sub)]: [sub] occurs somewhere in [s]. *)
Fixpoint includes (sub s : string) : bool :=
  String.prefix sub s ||
  match s with
  | EmptyString => false
  | String _ rest => includes sub rest
  end.

(** [v.name.includes('Google') && v.lang.startsWith('en')] and
    [v.lang.startsWith('en')], the two tests of line 100. *)
Definition googleEnglish (v : SpeechSynthesisVoice) : bool :=
  includes "Google" (voice_name v) && String.prefix "en" (voice_lang v).

Definition english (v : SpeechSynthesisVoice) : bool :=
  String.prefix "en" (voice_lang v).

(** The voice chosen by [speak] (line 100):
    [voices.find(..) || voices.find(..) || voices[0]]; a voice object is
    truthy, so [||] falls through on [undefined] only. *)
Definition selectVoice (voices : list SpeechSynthesisVoice)
    : option SpeechSynthesisVoice :=
  match List.find googleEnglish voices with
  | Some v => Some v
  | None =>
      match List.find english voices with
      | Some v => Some v
      | None => head voices
      end
  end.

(** ** Notions for the further properties *)

(** The number of space characters of a string. *)
Fixpoint spaces (s : string) : nat :=
  match s with
  | EmptyString => 0
  | String c rest => (if Ascii.eqb c " "%char then 1 else 0) + spaces rest
  end.

(** The continuation of the [await] of iteration [i] of the loop of
    [fetchFeedback] (lines 211-215, then the next iterations), with [n]
    iterations left after this one. *)
Definition fetchFeedback_continuation (n i : nat)
    (updatedQuestions : list Question) (q : Question)
    : result Feedback -> Async :=
  fun r =>
    match r with
    | Ok feedback =>
        let updated := <[i := with_feedback q feedback]> updatedQuestions in
        SetQuestions updated (fetchFeedback_loop n (S i) updated)
    | Err _ => fetchFeedback_loop n (S i) updatedQuestions
    end.

(** The changes of phase that one event can make. *)
Definition phase_edges : list (InterviewState * InterviewState) :=
  [ (NOT_STARTED, GETTING_JOB_DESC);
    (NOT_STARTED, INTERVIEWING);
    (GETTING_JOB_DESC, GENERATING_QUESTIONS);
    (GENERATING_QUESTIONS, INTERVIEWING);
    (INTERVIEWING, AWAITING_FEEDBACK);
    (INTERVIEWING, REVIEWING);
    (AWAITING_FEEDBACK, REVIEWING);
    (REVIEWING, NOT_STARTED) ].

Definition phase_edge (c c' : Config) : Prop :=
  interviewState (state c') = interviewState (state c) \/
  In (interviewState (state c), interviewState (state c')) phase_edges.

(** A session is under way: the questions exist and have not been
    discarded. *)
Definition in_session (p : InterviewState) : Prop :=
  p = INTERVIEWING \/ p = AWAITING_FEEDBACK \/ p = REVIEWING.

(** Within a session a step keeps the number, ids and texts of the
    questions, and never overwrites an answer, a duration or a feedback
    that is present. *)
Definition questions_frozen (c c' : Config) : Prop :=
  in_session (interviewState (state c)) ->
  in_session (interviewState (state c')) ->
  length (questions (state c')) = length (questions (state c)) /\
  forall i q q',
    questions (state c) !! i = Some q ->
    questions (state c') !! i = Some q' ->
    id q' = id q /\ text q' = text q /\
    (is_Some (answer q) ->
     answer q' = answer q /\ audioDuration q' = audioDuration q) /\
    (is_Some (feedback q) -> feedback q' = feedback q).

(** What holds of the questions in a session, by phase. *)
Definition none_answered_from (k : nat) (qs : list Question) : Prop :=
  forall i q, qs !! i = Some q ->
    feedback q = None /\
    (i < k -> is_Some (answer q)) /\
    (k <= i -> answer q = None).

Definition all_recorded (qs : list Question) : Prop :=
  forall i q, qs !! i = Some q ->
    is_Some (answer q) /\ (is_Some (feedback q) -> answered q = true).

(** The pipeline is suspended at iteration [i], with [n] left after it. *)
Definition pipeline_pending (n i : nat) (c : Config) : Prop :=
  exists q,
    tasks c = [AwaitFeedback q
                 (fetchFeedback_continuation n i (questions (state c)) q)] /\
    questions (state c) !! i = Some q /\
    answered q = true /\
    i + S n = length (questions (state c)) /\
    forall j q', i <= j -> questions (state c) !! j = Some q' ->
                 feedback q' = None.

Definition phase_ok (c : Config) : Prop :=
  match interviewState (state c) with
  | NOT_STARTED =>
      jobDescription (state c) = "" /\ questions (state c) = [] /\
      currentQuestionIndex (state c) = 0 /\ tasks c = []
  | GETTING_JOB_DESC =>
      questions (state c) = [] /\ currentQuestionIndex (state c) = 0 /\
      tasks c = []
  | GENERATING_QUESTIONS =>
      questions (state c) = [] /\ currentQuestionIndex (state c) = 0 /\
      jobDescription (state c) <> "" /\
      exists k,
        tasks c = [AwaitQuestions (jobDescription (state c)) k] /\
        startInterview (jobDescription (state c))
        = SetInterviewState GENERATING_QUESTIONS
            (AwaitQuestions (jobDescription (state c)) k)
  | INTERVIEWING =>
      tasks c = [] /\
      none_answered_from (currentQuestionIndex (state c))
        (questions (state c))
  | AWAITING_FEEDBACK =>
      all_recorded (questions (state c)) /\
      exists n i, pipeline_pending n i c
  | REVIEWING =>
      tasks c = [] /\ all_recorded (questions (state c))
  end.

Record session (c : Config) : Prop := {
  session_listening :
    isListening (state c) = true ->
    interviewState (state c) = INTERVIEWING /\
    recognitionRef (state c) = true /\
    is_Some (recordingStartTime (state c));
  session_unsupported :
    recognitionRef (state c) = false ->
    currentQuestionIndex (state c) = 0 /\
    interviewState (state c) <> AWAITING_FEEDBACK /\
    interviewState (state c) <> REVIEWING;
  session_ids :
    forall i q, questions (state c) !! i = Some q -> id q = i;
  session_phase : phase_ok c }.

(** Settling the pending feedback call [m] times, with the responses
    [responses k0], [responses (k0 + 1)], ... *)
Definition settlements (responses : nat -> result Feedback) (k0 m : nat)
    : list Event :=
  map (fun k => FeedbackSettled 0 (responses k)) (seq k0 m).

(** Some voices, and a run of the application that ends in the report. *)
Definition example_voices : list SpeechSynthesisVoice :=
  [ {| voice_name := "Anna"; voice_lang := "de-DE" |};
    {| voice_name := "Samantha"; voice_lang := "en-US" |};
    {| voice_name := "Google UK English Female"; voice_lang := "en-GB" |} ].

Definition spoken (t : string) : SpeechRecognitionEvent :=
  {| resultIndex := 0;
     results := [ {| isFinal := true; transcript := t |} ] |}.

Definition one_question_run : list Event :=
  [ ClickStartWithJobDescription;
    ChangeJobDescription "Rust developer";
    ClickGenerateQuestionsAndStart;
    QuestionsSettled 0 (Ok ["Why Rust?"]);
    ClickMicrophone 1000;
    RecognitionResult (spoken "it is safe");
    ClickMicrophone 4000 ].

Definition reviewed_run : list Event :=
  one_question_run ++ [ FeedbackSettled 0 (Ok example_feedback) ].

(** A browser without speech recognition, after the common questions are
    started and the microphone button is clicked. *)
Definition unsupported_config : Config :=
  Eval vm_compute in
    match handle_all [ClickUseCommonQuestions; ClickMicrophone 1000]
            (initialConfig false) with
    | Some c => c
    | None => initialConfig false
    end.

(** The configurations some runs end in, evaluated. *)
Definition first_answer_config : Config :=
  Eval vm_compute in after_run first_answer_run.

Definition listening_config : Config :=
  Eval vm_compute in
    after_run [ClickUseCommonQuestions; ClickMicrophone 1000].

Definition pending_config : Config :=
  Eval vm_compute in after_run one_question_run.

Definition reviewed_config : Config :=
  Eval vm_compute in after_run reviewed_run.



(** * Properties *)

(** ** Strings and lists *)

Lemma append_cons (c : ascii) (s t : string) :
  String c s +:+ t = String c (s +:+ t).
Proof. reflexivity. Qed.

Lemma append_nil_l (s : string) : "" +:+ s = s.
Proof. reflexivity. Qed.

Lemma append_nil_r (s : string) : s +:+ "" = s.
Proof. induction s as [|c s IH]; [done | by rewrite append_cons, IH]. Qed.

Lemma append_assoc (a b c : string) : (a +:+ b) +:+ c = a +:+ b +:+ c.
Proof.
  induction a as [|x a IH]; [done | by rewrite !append_cons, IH].
Qed.

Lemma truthy_string_false (s : string) : truthy_string s = false <-> s = "".
Proof. destruct s; simpl; split; congruence. Qed.

Lemma truthy_string_true (s : string) : truthy_string s = true <-> s <> "".
Proof. destruct s; simpl; split; congruence. Qed.

Lemma handle_all_reachable es : forall c c',
  reachable c -> handle_all es c = Some c' -> reachable c'.
Proof.
  induction es as [|e es IH]; simpl; intros c c' Hc H.
  - by inversion H; subst.
  - destruct (handle e c) as [c1|] eqn:He; [|done].
    eapply IH; [|exact H]. by eapply reachable_step.
Qed.

(** ** Speaking pace (C1) *)




(** ** Reset (C6) *)

(** C6.  From any state [resetInterview] gives phase [NOT_STARTED], no
    questions, index 0, an empty job description and empty transcript
    buffers, and applying it again changes nothing. *)
Theorem resetInterview_spec (s : State) :
  interviewState (resetInterview s) = NOT_STARTED /\
  questions (resetInterview s) = [] /\
  currentQuestionIndex (resetInterview s) = 0 /\
  jobDescription (resetInterview s) = "" /\
  finalTranscript (resetInterview s) = "" /\
  interimTranscript (resetInterview s) = "" /\
  resetInterview (resetInterview s) = resetInterview s.
Proof. by repeat split. Qed.

(** ** Transcript accumulation (C9, C8) *)

Lemma onresult_loop (rs : list SpeechRecognitionResult) (acc : string * string) :
  fold_left onresult_body rs acc
  = (fst acc +:+ join (map transcript
                         (List.filter (fun r => negb (isFinal r)) rs)),
     snd acc +:+ join (map transcript (List.filter isFinal rs))).
Proof.
  revert acc. induction rs as [|r rs IH]; intros [i f]; simpl.
  - by rewrite !append_nil_r.
  - rewrite IH. unfold onresult_body. destruct (isFinal r); simpl;
      by rewrite append_assoc.
Qed.

(** The state after one recognition event. *)
Lemma onresult_eq (event : SpeechRecognitionEvent) (s : State) :
  onresult event s
  = setFinalTranscript (finalTranscript s +:+ final_chunk event)
      (setInterimTranscript (join (interim_fragments event)) s).
Proof.
  unfold onresult, final_chunk, final_fragments, interim_fragments.
  rewrite onresult_loop. simpl. rewrite !append_nil_l.
  destruct (truthy_string (join _)); simpl.
  - done.
  - rewrite append_nil_r. by destruct s.
Qed.

(** C9, as the code has it.  One event replaces the interim buffer by the
    concatenation of its interim fragments, and appends to the final
    buffer the concatenation of its final fragments followed by a single
    [". "] (nothing when that concatenation is empty): one delimiter per
    event, not per fragment.  Nothing else in the state changes. *)
Theorem onresult_spec (event : SpeechRecognitionEvent) (s : State) :
  interimTranscript (onresult event s) = join (interim_fragments event) /\
  finalTranscript (onresult event s)
  = finalTranscript s +:+ final_chunk event /\
  final_chunk event
  = (if truthy_string (join (final_fragments event))
     then join (final_fragments event) +:+ ". " else "") /\
  onresult event s
  = setFinalTranscript (finalTranscript s +:+ final_chunk event)
      (setInterimTranscript (join (interim_fragments event)) s).
Proof. rewrite onresult_eq. by repeat split. Qed.

(** C9 as stated fails when one event delivers two final fragments: the
    buffer receives ["ab. "], not each fragment with its own delimiter. *)
Lemma two_finals_one_delimiter :
  finalTranscript (onresult two_finals_event (initialState true)) = "ab. " /\
  append_each_terminated (finalTranscript (initialState true))
    (final_fragments two_finals_event) = "a. b. " /\
  finalTranscript (onresult two_finals_event (initialState true))
  <> append_each_terminated (finalTranscript (initialState true))
       (final_fragments two_finals_event).
Proof. repeat split. discriminate. Qed.

Lemma onresults_frame (events : list SpeechRecognitionEvent) (s : State) :
  questions (onresults events s) = questions s /\
  currentQuestionIndex (onresults events s) = currentQuestionIndex s /\
  recognitionRef (onresults events s) = recognitionRef s /\
  recordingStartTime (onresults events s) = recordingStartTime s /\
  interviewState (onresults events s) = interviewState s.
Proof.
  revert s. induction events as [|ev evs IH]; intros s; [done|].
  simpl. destruct (IH (onresult ev s)) as (-> & -> & -> & -> & ->).
  by rewrite onresult_eq.
Qed.

Lemma onresults_finalTranscript (events : list SpeechRecognitionEvent)
    (s : State) :
  finalTranscript (onresults events s)
  = finalTranscript s +:+ join (map final_chunk events).
Proof.
  revert s. induction events as [|ev evs IH]; intros s; simpl.
  - by rewrite append_nil_r.
  - unfold onresults in IH. rewrite IH, onresult_eq. simpl.
    by rewrite append_assoc.
Qed.

Lemma join_no_finals (events : list SpeechRecognitionEvent) :
  Forall (fun event => final_fragments event = []) events ->
  join (map final_chunk events) = "".
Proof.
  induction 1 as [|ev evs Hev _ IH]; [done|].
  simpl. rewrite IH. unfold final_chunk. by rewrite Hev.
Qed.

Lemma stopListening_questions (now : Z) (s : State) :
  recognitionRef s = true ->
  questions (stopListening now s)
  = imap (fun i q =>
            if Nat.eqb i (currentQuestionIndex s)
            then with_answer q (finalTranscript s)
                   (duration (recordingStartTime s) now)
            else q) (questions s).
Proof.
  intros H. unfold stopListening. rewrite H. simpl.
  by destruct (_ <? _)%Z.
Qed.

(** C8.  Whatever recognition events arrive, [stopListening] stores as the
    answer of the current question exactly the final-transcript buffer,
    and that buffer is the old one followed by what the final fragments
    of each event contribute: no interim fragment occurs in it.  Starting
    from an empty buffer (as [startListening] leaves it), events without
    final fragments give the answer ['']. *)
Theorem stopListening_stores_final_buffer
    (s : State) (events : list SpeechRecognitionEvent) (now : Z)
    (q : Question) :
  recognitionRef s = true ->
  questions s !! currentQuestionIndex s = Some q ->
  exists q',
    questions (stopListening now (onresults events s))
      !! currentQuestionIndex s = Some q' /\
    answer q' = Some (finalTranscript (onresults events s)) /\
    finalTranscript (onresults events s)
    = finalTranscript s +:+ join (map final_chunk events) /\
    (finalTranscript s = "" ->
     Forall (fun event => final_fragments event = []) events ->
     answer q' = Some "") /\
    (forall t0, finalTranscript (startListening t0 s) = "").
Proof.
  intros Href Hq.
  destruct (onresults_frame events s) as (Hqs & Hidx & Hr & _).
  rewrite stopListening_questions by (by rewrite Hr).
  rewrite list_lookup_imap, Hqs, Hidx, Hq. simpl.
  rewrite Nat.eqb_refl. eexists. split; [reflexivity|]. simpl.
  split; [done|]. split; [apply onresults_finalTranscript|]. split.
  - intros H0 Hno. by rewrite onresults_finalTranscript, H0, join_no_finals.
  - intros t0. unfold startListening. by rewrite Href.
Qed.

(** Witness of C8: recording the first preset question while only an
    interim fragment arrives stores the answer ['']. *)
Lemma stopListening_stores_final_buffer_witness :
  exists q',
    questions (stopListening 3000
                 (onresults [interim_only_event]
                    (startListening 1000 interviewing_state))) !! 0
    = Some q' /\
    answer q' = Some "".
Proof.
  destruct (stopListening_stores_final_buffer
              (startListening 1000 interviewing_state)
              [interim_only_event] 3000
              (example_question 0 None None) eq_refl eq_refl)
    as (q' & Hq' & _ & _ & Hempty & _).
  exists q'. split; [exact Hq'|].
  apply Hempty; [reflexivity | repeat constructor].
Defined.

(** ** The feedback pipeline (C2, C10) *)

Section Pipeline.

Variable generateQuestionsFromJD : string -> result (list string).
Variable generateContent : nat -> Prompt -> result Feedback.

#[local] Abbreviation exec_with :=
  (exec generateQuestionsFromJD generateContent).

Lemma exec_await_fst meanwhile q k c s :
  fst (exec_with meanwhile (AwaitFeedback q k) c s)
  = fst (exec_with meanwhile
           (k (getAnswerFeedback (generateContent c) q)) (S c)
           (meanwhile c s)).
Proof. simpl. by destruct (exec _ _ _ _ _ _). Qed.

Lemma exec_await_snd meanwhile q k c s :
  snd (exec_with meanwhile (AwaitFeedback q k) c s)
  = (q, getAnswerFeedback (generateContent c) q)
    :: snd (exec_with meanwhile
              (k (getAnswerFeedback (generateContent c) q)) (S c)
              (meanwhile c s)).
Proof. simpl. by destruct (exec _ _ _ _ _ _). Qed.

(** The calls of the loop and the final phase, whatever other handlers
    do in the meantime. *)
Lemma exec_loop_log meanwhile n : forall i uq c s,
  i + n = length uq ->
  snd (exec_with meanwhile (fetchFeedback_loop n i uq) c s)
  = imap (fun k q => (q, getAnswerFeedback (generateContent (c + k)) q))
      (List.filter answered (drop i uq)) /\
  interviewState (fst (exec_with meanwhile (fetchFeedback_loop n i uq) c s))
  = REVIEWING.
Proof.
  induction n as [|n IH]; intros i uq c s Hlen.
  - rewrite drop_ge by lia. done.
  - destruct (lookup_lt_is_Some_2 uq i) as [q Hq]; [lia|].
    rewrite (drop_S _ _ _ Hq). simpl. rewrite Hq. fold (answered q).
    destruct (answered q) eqn:Ha.
    + rewrite exec_await_fst, exec_await_snd, imap_cons, Nat.add_0_r.
      assert (Hshift : forall l : list Question,
        imap ((fun k q0 => (q0, getAnswerFeedback (generateContent (c + k)) q0))
                ∘ S) l
        = imap (fun k q0 =>
                  (q0, getAnswerFeedback (generateContent (S c + k)) q0)) l).
      { intros l. apply imap_ext. intros k x _. simpl.
        by rewrite Nat.add_succ_r. }
      rewrite Hshift.
      destruct (getAnswerFeedback (generateContent c) q) as [f|e]; simpl.
      * destruct (IH (S i) (<[i:=with_feedback q f]> uq) (S c)
                    (setQuestions (<[i:=with_feedback q f]> uq)
                       (meanwhile c s))) as [-> ->].
        { rewrite length_insert. lia. }
        by rewrite drop_insert_lt by lia.
      * destruct (IH (S i) uq (S c) (meanwhile c s)) as [-> ->];
          [lia | done].
    + apply IH. lia.
Qed.

Lemma setQuestions_same (s : State) : setQuestions (questions s) s = s.
Proof. by destruct s. Qed.

(** The state after the loop when no other handler interferes. *)
Lemma exec_loop_state n : forall i uq c s,
  i + n = length uq -> questions s = uq ->
  fst (exec_with undisturbed (fetchFeedback_loop n i uq) c s)
  = setInterviewState REVIEWING
      (setQuestions (take i uq ++ process generateContent c (drop i uq)) s).
Proof.
  induction n as [|n IH]; intros i uq c s Hlen Hs.
  - rewrite drop_ge, take_ge, app_nil_r by lia. simpl.
    by rewrite <- Hs, setQuestions_same.
  - destruct (lookup_lt_is_Some_2 uq i) as [q Hq]; [lia|].
    rewrite (drop_S _ _ _ Hq). simpl. rewrite Hq. fold (answered q).
    destruct (answered q) eqn:Ha.
    + rewrite exec_await_fst. unfold undisturbed at 2.
      destruct (getAnswerFeedback (generateContent c) q) as [f|e]; simpl.
      * rewrite IH; [|rewrite length_insert; lia|done].
        rewrite (take_S_r _ _ (with_feedback q f))
          by (apply list_lookup_insert_eq; lia).
        by rewrite take_insert_ge, drop_insert_lt, <- app_assoc by lia.
      * rewrite IH by (done || lia).
        by rewrite (take_S_r _ _ q), <- app_assoc.
    + rewrite IH by (done || lia).
      by rewrite (take_S_r _ _ q), <- app_assoc.
Qed.

Lemma process_length : forall l c,
  length (process generateContent c l) = length l.
Proof.
  induction l as [|q l IH]; intros c; simpl; [done|].
  destruct (answered q); simpl; by rewrite IH.
Qed.

Lemma process_lookup : forall l c j,
  process generateContent c l !! j
  = (fun q =>
       if answered q
       then attach (getAnswerFeedback
                      (generateContent
                         (c + length (List.filter answered (take j l)))) q) q
       else q) <$> l !! j.
Proof.
  induction l as [|q l IH]; intros c j; [done|].
  destruct j as [|j]; simpl.
  - rewrite Nat.add_0_r. by destruct (answered q).
  - destruct (answered q); simpl; rewrite IH; [|done].
    by rewrite Nat.add_succ_r.
Qed.

(** Positions as ids make the ids of any selection ascend. *)
Lemma selected_ids_ascend (p : Question -> bool) : forall l k,
  (forall i q, l !! i = Some q -> id q = k + i) ->
  StronglySorted lt (map id (List.filter p l)) /\
  Forall (le k) (map id (List.filter p l)).
Proof.
  induction l as [|q l IH]; intros k Hid; simpl.
  - split; constructor.
  - destruct (IH (S k)) as [Hs Hb].
    { intros i q' Hi. rewrite (Hid (S i) q' Hi). lia. }
    assert (Hq : id q = k) by (rewrite (Hid 0 q eq_refl); lia).
    destruct (p q); simpl.
    + split.
      * constructor; [done|]. rewrite Hq.
        eapply Forall_impl; [exact Hb|]. simpl. lia.
      * constructor; [lia|]. eapply Forall_impl; [exact Hb|]. simpl. lia.
    + split; [done|]. eapply Forall_impl; [exact Hb|]. simpl. lia.
Qed.

Lemma map_fst_calls (l : list Question) (c : nat) :
  map fst (imap (fun k q =>
                   (q, getAnswerFeedback (generateContent (c + k)) q)) l)
  = l.
Proof.
  revert c. induction l as [|q l IH]; intros c; [done|].
  rewrite imap_cons. simpl. f_equal. rewrite <- (IH (S c)) at 2.
  f_equal. apply imap_ext. intros k x _. simpl. by rewrite Nat.add_succ_r.
Qed.

(** C2.  On questions whose ids are their positions (as [startInterview]
    numbers them), the pipeline awaits [getAnswerFeedback] for exactly
    the questions with a non-empty answer, in list order, each call
    issued after the previous one has settled: the [k]-th call is for
    the [k]-th answered question, and the ids of the calls ascend.  A
    question whose call succeeded carries the returned feedback, one
    whose call failed (or that has no answer) is left as it was, and the
    phase ends as [REVIEWING] whatever the outcomes; when every call
    fails the questions are unchanged. *)
Theorem fetchFeedback_in_order (s : State) :
  (forall i q, questions s !! i = Some q -> id q = i) ->
  let r := exec_with undisturbed (fetchFeedback (questions s)) 0 s in
  snd r = imap (fun k q => (q, getAnswerFeedback (generateContent k) q))
            (List.filter answered (questions s)) /\
  StronglySorted lt (map (fun call => id (fst call)) (snd r)) /\
  interviewState (fst r) = REVIEWING /\
  length (questions (fst r)) = length (questions s) /\
  (forall i q, questions s !! i = Some q ->
     questions (fst r) !! i
     = Some (if answered q
             then attach
                    (getAnswerFeedback
                       (generateContent
                          (length (List.filter answered
                                     (take i (questions s))))) q) q
             else q)) /\
  (forall q f, feedback (attach (Ok f) q) = Some f) /\
  (forall q e, attach (Err e) q = q) /\
  ((forall k p, exists e, generateContent k p = Err e) ->
   questions (fst r) = questions s).
Proof.
  intros Hid r.
  assert (Hr : fst r = setInterviewState REVIEWING
                 (setQuestions (process generateContent 0 (questions s)) s)).
  { unfold r, fetchFeedback. by rewrite exec_loop_state by done. }
  assert (Hlog : snd r
            = imap (fun k q => (q, getAnswerFeedback (generateContent k) q))
                (List.filter answered (questions s))).
  { unfold r, fetchFeedback.
    by destruct (exec_loop_log undisturbed (length (questions s)) 0
                   (questions s) 0 s eq_refl) as [-> _]. }
  assert (Hlook : forall i q, questions s !! i = Some q ->
     questions (fst r) !! i
     = Some (if answered q
             then attach
                    (getAnswerFeedback
                       (generateContent
                          (length (List.filter answered
                                     (take i (questions s))))) q) q
             else q)).
  { intros i q Hq. rewrite Hr. simpl. by rewrite process_lookup, Hq. }
  split; [exact Hlog|]. split.
  { rewrite Hlog, <- (map_map fst id), (map_fst_calls _ 0).
    apply (selected_ids_ascend answered (questions s) 0). exact Hid. }
  split; [by rewrite Hr|]. split; [by rewrite Hr; apply process_length|].
  split; [exact Hlook|]. split; [done|]. split; [done|].
  intros Hfail. apply list_eq. intros i.
  destruct (questions s !! i) as [q|] eqn:Hq.
  - rewrite (Hlook i q Hq). destruct (answered q) eqn:Ha; [|done].
    unfold getAnswerFeedback.
    destruct (getAnswerFeedback_prompt q) as [pr|e]; [|done].
    by destruct (Hfail (length (List.filter answered (take i (questions s))))
                  pr) as [e ->].
  - apply lookup_ge_None. rewrite Hr. simpl. rewrite process_length.
    by apply lookup_ge_None.
Qed.

Lemma fetchFeedback_loop_publishes (P : list Question -> Prop) n :
  forall i uq,
  P uq ->
  (forall v j q f, P v -> v !! j = Some q -> answered q = true ->
     P (<[j:=with_feedback q f]> v)) ->
  publishes P (fetchFeedback_loop n i uq).
Proof.
  induction n as [|n IH]; intros i uq HP Hpres; simpl; [done|].
  destruct (uq !! i) as [q|] eqn:Hq; [|by apply IH].
  fold (answered q). destruct (answered q) eqn:Ha; [|by apply IH].
  intros [f|e]; simpl; [|by apply IH].
  split; [by eapply Hpres|]. apply IH; [by eapply Hpres | done].
Qed.

Lemma answered_prompt (q : Question) :
  answered q = true ->
  exists p, getAnswerFeedback_prompt q = Ok p /\
            forall gc, getAnswerFeedback gc q = gc p.
Proof.
  unfold answered, getAnswerFeedback, getAnswerFeedback_prompt.
  destruct (answer q) as [[|c a]|]; simpl; [done| |done].
  intros _. eexists. split; [reflexivity | done].
Qed.

Lemma not_answered_iff (q : Question) :
  answered q = false <-> answer q = None \/ answer q = Some "".
Proof.
  unfold answered. destruct (answer q) as [[|c a]|]; simpl;
    split; intros H; try done; auto; by destruct H.
Qed.

(** C10.  The guard of [getAnswerFeedback] throws "Answer is missing"
    exactly for an absent or empty answer; otherwise the remote call is
    made.  Every call of the pipeline is on a question with a non-empty
    answer, so none fails on that guard; a question whose answer is
    absent or [''] is never passed to [getAnswerFeedback], every list the
    pipeline publishes holds it unchanged, and so does the final
    state. *)
Theorem missing_answer_branch_unreachable
    (meanwhile : nat -> State -> State) (s : State) (qs : list Question) :
  (forall q, getAnswerFeedback_prompt q = Err AnswerIsMissing
             <-> answer q = None \/ answer q = Some "") /\
  (forall q gc, answer q = None \/ answer q = Some "" ->
                getAnswerFeedback gc q = Err AnswerIsMissing) /\
  (forall q, ~ (answer q = None \/ answer q = Some "") ->
     exists p, getAnswerFeedback_prompt q = Ok p /\
               forall gc, getAnswerFeedback gc q = gc p) /\
  let r := exec_with meanwhile (fetchFeedback qs) 0 s in
  Forall (fun call =>
            answered (fst call) = true /\
            getAnswerFeedback_prompt (fst call) <> Err AnswerIsMissing)
         (snd r) /\
  (forall i q, qs !! i = Some q ->
     answer q = None \/ answer q = Some "" ->
     ~ In q (map fst (snd r)) /\
     publishes (fun v => v !! i = Some q) (fetchFeedback qs)) /\
  (forall i q, questions s = qs -> qs !! i = Some q ->
     answer q = None \/ answer q = Some "" ->
     questions (fst (exec_with undisturbed (fetchFeedback qs) 0 s)) !! i
     = Some q).
Proof.
  assert (Hguard : forall q, getAnswerFeedback_prompt q = Err AnswerIsMissing
                             <-> answer q = None \/ answer q = Some "").
  { intros q. rewrite <- not_answered_iff. unfold answered.
    unfold getAnswerFeedback_prompt.
    destruct (answer q) as [[|c a]|]; simpl; split; congruence. }
  split; [exact Hguard|]. split.
  { intros q gc H. apply Hguard in H. unfold getAnswerFeedback.
    by rewrite H. }
  split.
  { intros q H. apply answered_prompt.
    rewrite <- not_answered_iff in H. by destruct (answered q). }
  intros r.
  assert (Hlog : map fst (snd r) = List.filter answered qs).
  { unfold r, fetchFeedback.
    destruct (exec_loop_log meanwhile (length qs) 0 qs 0 s eq_refl)
      as [-> _].
    by rewrite (map_fst_calls _ 0). }
  split.
  { apply List.Forall_forall. intros call Hin.
    assert (Ha : answered (fst call) = true).
    { apply (filter_In answered (fst call) qs). rewrite <- Hlog.
      by apply in_map. }
    split; [done|]. rewrite Hguard, <- not_answered_iff. congruence. }
  split.
  - intros i q Hq Hno. apply not_answered_iff in Hno. split.
    + rewrite Hlog, filter_In. intros [_ Ha]. congruence.
    + apply fetchFeedback_loop_publishes; [done|].
      intros v j q' f Hv Hj Ha.
      rewrite list_lookup_insert_ne; [done|]. intros <-. congruence.
  - intros i q Hs Hq Hno. apply not_answered_iff in Hno.
    unfold fetchFeedback. rewrite exec_loop_state by done. simpl.
    change (drop 0 qs) with qs.
    by rewrite process_lookup, Hq; simpl; rewrite Hno.
Qed.

End Pipeline.

(** Witness of C2: three answered questions with ids 0, 1, 2, where the
    call for id 1 fails: feedback is present for 0 and 2, absent for 1,
    and the phase is [REVIEWING]. *)
Lemma fetchFeedback_in_order_witness :
  let r := exec no_generation second_call_fails undisturbed
             (fetchFeedback (questions three_answered)) 0 three_answered in
  map (fun call => id (fst call)) (snd r) = [0; 1; 2] /\
  map feedback (questions (fst r))
  = [Some example_feedback; None; Some example_feedback] /\
  interviewState (fst r) = REVIEWING.
Proof.
  assert (Hid : forall i q,
            questions three_answered !! i = Some q -> id q = i).
  { intros [|[|[|i]]] q H; simpl in H; by inversion H. }
  destruct (fetchFeedback_in_order no_generation second_call_fails
              three_answered Hid) as (Hlog & _ & Hphase & _).
  split; [by rewrite Hlog|]. split; [reflexivity | exact Hphase].
Defined.

(** ** Question acquisition (C3) *)

Lemma toQuestions_lookup (l : list string) (i : nat) :
  toQuestions l !! i
  = (fun t => {| id := i; text := t; answer := None;
                 feedback := None; audioDuration := None |}) <$> l !! i.
Proof. unfold toQuestions. by rewrite list_lookup_imap. Qed.

Lemma toQuestions_length (l : list string) :
  length (toQuestions l) = length l.
Proof. unfold toQuestions. by rewrite length_imap. Qed.

Lemma toQuestions_text (l : list string) : map text (toQuestions l) = l.
Proof.
  apply list_eq. intros i. rewrite list_lookup_fmap, toQuestions_lookup.
  by destruct (l !! i).
Qed.

Lemma toQuestions_id (l : list string) :
  map id (toQuestions l) = seq 0 (length l).
Proof.
  apply list_eq. intros i. rewrite list_lookup_fmap, toQuestions_lookup.
  destruct (l !! i) as [t|] eqn:Hi; simpl.
  - symmetry. apply lookup_seq. split; [done|]. by apply lookup_lt_Some in Hi.
  - symmetry. apply lookup_seq_ge. by apply lookup_ge_None.
Qed.

(** C3, as the code has it.  [startInterview] ends in phase [INTERVIEWING]
    with index 0 and one fresh question per text, with ids 0, 1, 2, ... in
    order.  The texts are the five preset questions when there is no job
    description or when the generation call fails; otherwise they are
    whatever list the generation call returned, of whatever length. *)
Theorem startInterview_spec
    (generateQuestionsFromJD : string -> result (list string))
    (generateContent : nat -> Prompt -> result Feedback)
    (jobDescription : string) (s : State) :
  let s' := fst (exec generateQuestionsFromJD generateContent undisturbed
                   (startInterview jobDescription) 0 s) in
  let texts :=
    if truthy_string jobDescription then
      match generateQuestionsFromJD jobDescription with
      | Ok generatedQs => generatedQs
      | Err _ => PRESET_QUESTIONS
      end
    else PRESET_QUESTIONS in
  interviewState s' = INTERVIEWING /\
  currentQuestionIndex s' = 0 /\
  questions s' = toQuestions texts /\
  map text (questions s') = texts /\
  map id (questions s') = seq 0 (length texts) /\
  Forall (fun q => answer q = None /\ feedback q = None /\
                   audioDuration q = None) (questions s') /\
  length PRESET_QUESTIONS = 5 /\
  (jobDescription = "" \/
   (exists e, generateQuestionsFromJD jobDescription = Err e) ->
   questions s' = toQuestions PRESET_QUESTIONS /\
   length (questions s') = 5).
Proof.
  intros s' texts.
  assert (Hs' : s' = setInterviewState INTERVIEWING
                       (setCurrentQuestionIndex 0
                          (setQuestions (toQuestions texts)
                             (setInterviewState GENERATING_QUESTIONS s)))).
  { unfold s', texts, startInterview. simpl.
    destruct (truthy_string jobDescription); [|done]. simpl.
    by destruct (generateQuestionsFromJD jobDescription). }
  rewrite Hs'. simpl.
  split; [done|]. split; [done|]. split; [done|].
  split; [apply toQuestions_text|]. split; [apply toQuestions_id|].
  split.
  { apply Forall_lookup. intros i q. rewrite toQuestions_lookup.
    destruct (texts !! i); simpl; [|done]. by intros [= <-]. }
  split; [done|].
  intros H. assert (texts = PRESET_QUESTIONS) as ->; [|done].
  unfold texts. destruct H as [-> | [e ->]]; [done|].
  by destruct (truthy_string jobDescription).
Qed.

(** C3 as stated fails: with a job description, a generation call that
    returns one question gives an interview of one question. *)
Lemma generation_may_return_fewer :
  let s := fst (exec one_question_generated every_call_succeeds undisturbed
                  (startInterview "Rust developer") 0 (initialState true)) in
  interviewState s = INTERVIEWING /\
  map text (questions s) = ["Why this role?"] /\
  length (questions s) <> 5.
Proof. repeat split. discriminate. Qed.

(** ** Reachable configurations (C5, C7) *)

Lemma update_same_phase (f : State -> State) (c : Config) :
  interviewState (f (state c)) = interviewState (state c) ->
  update f c = {| state := f (state c); tasks := tasks c |}.
Proof.
  intros H. unfold update, feedbackEffect. simpl.
  repeat case_decide; congruence.
Qed.

Lemma update_not_awaiting (f : State -> State) (c : Config) :
  interviewState (f (state c)) <> AWAITING_FEEDBACK ->
  update f c = {| state := f (state c); tasks := tasks c |}.
Proof.
  intros H. unfold update, feedbackEffect. simpl. by case_decide.
Qed.

Lemma invariant_frame (c : Config) (s' : State) :
  interviewState s' = interviewState (state c) ->
  questions s' = questions (state c) ->
  currentQuestionIndex s' = currentQuestionIndex (state c) ->
  invariant c ->
  invariant {| state := s'; tasks := tasks c |} /\
  index_step c {| state := s'; tasks := tasks c |}.
Proof.
  intros Hp Hq Hi (Ht & Hx & Ha & Hpub). split.
  - unfold invariant, tasks_ok, index_ok in *. simpl.
    rewrite Hp, Hq, Hi. done.
  - unfold index_step. simpl. rewrite Hp, Hi.
    intros ->. case_decide; [by left | done].
Qed.

Lemma atomic_toQuestions (l : list string) : Forall atomic (toQuestions l).
Proof.
  apply Forall_lookup. intros i q. rewrite toQuestions_lookup.
  destruct (l !! i); simpl; [|done]. intros [= <-].
  unfold atomic. simpl. split; intros [? ?]; done.
Qed.

Lemma atomic_with_answer (q : Question) (a : string) (d : number) :
  atomic (with_answer q a d).
Proof. unfold atomic. simpl. split; intros _; eauto. Qed.

Lemma atomic_with_feedback (q : Question) (f : Feedback) :
  atomic q -> atomic (with_feedback q f).
Proof. done. Qed.

Lemma loop_feedback_task n : forall i uq,
  feedback_task (fetchFeedback_loop n i uq).
Proof.
  induction n as [|n IH]; intros i uq; simpl; [done|].
  destruct (uq !! i) as [q|]; [|apply IH].
  destruct (truthy_opt truthy_string (answer q)); [|apply IH].
  intros [f|e]; simpl; apply IH.
Qed.

Lemma loop_publishes_atomic n i uq :
  Forall atomic uq ->
  publishes (Forall atomic) (fetchFeedback_loop n i uq).
Proof.
  intros H. apply fetchFeedback_loop_publishes; [done|].
  intros v j q f Hv Hj _. apply Forall_insert; [done|].
  apply atomic_with_feedback. by eapply Forall_lookup_1.
Qed.

(** Running a [fetchFeedback] in progress up to its next [await]. *)
Lemma run_feedback_task (P : list Question -> Prop) (t : Async) :
  forall s,
  feedback_task t -> publishes P t -> P (questions s) ->
  P (questions (fst (run t s))) /\
  publishes P (snd (run t s)) /\
  ((snd (run t s) = Done /\ interviewState (fst (run t s)) = REVIEWING) \/
   (exists q k, snd (run t s) = AwaitFeedback q k /\
                (forall r, feedback_task (k r)) /\
                interviewState (fst (run t s)) = interviewState s)).
Proof.
  induction t as [|v k IH|v k IH|v k IH|jd k IH|q k IH]; intros s Hf Hp Hs;
    simpl in *; try done.
  - destruct Hf as [-> ->]. simpl. auto.
  - destruct Hp as [Hv Hp].
    destruct (IH (setQuestions v s) Hf Hp Hv) as (H1 & H2 & H3). done.
  - split; [done|]. split; [done|]. right. by exists q, k.
Qed.

Lemma spawn_startInterview (c : Config) :
  invariant c -> tasks c = [] ->
  interviewState (state c) <> INTERVIEWING ->
  invariant (spawn (startInterview (jobDescription (state c))) c) /\
  index_step c (spawn (startInterview (jobDescription (state c))) c).
Proof.
  destruct c as [s ts]. simpl. intros (_ & _ & Ha & _) -> Hph.
  unfold spawn, startInterview, index_step. simpl.
  destruct (truthy_string (jobDescription s)); simpl.
  - split; [|done]. repeat split; simpl; try done.
    + eexists. split; [reflexivity|]. intros [l|e]; eexists; reflexivity.
    + constructor; [|done]. intros [l|e]; simpl;
        (split; [apply atomic_toQuestions | done]).
  - split.
    + repeat split; simpl; try done.
      * intros _. right. simpl. lia.
      * apply atomic_toQuestions.
    + intros _. by case_decide.
Qed.

Lemma stopListening_atomic (now : Z) (s : State) :
  Forall atomic (questions s) ->
  Forall atomic (questions (stopListening now s)).
Proof.
  intros H. destruct (recognitionRef s) eqn:Href.
  - rewrite stopListening_questions by done.
    apply Forall_lookup. intros i q. rewrite list_lookup_imap.
    destruct (questions s !! i) as [q0|] eqn:Hi; simpl; [|done].
    intros [= <-]. destruct (Nat.eqb i _).
    + apply atomic_with_answer.
    + by eapply Forall_lookup_1.
  - unfold stopListening. by rewrite Href.
Qed.

(** A [fetchFeedback] in progress, run up to its next [await] in phase
    [AWAITING_FEEDBACK], leaves a good configuration whose phase is not
    [INTERVIEWING]. *)
Lemma feedback_progress (t : Async) (s : State) (ts : list Async) :
  feedback_task t -> publishes (Forall atomic) t ->
  Forall atomic (questions s) ->
  interviewState s = AWAITING_FEEDBACK ->
  ts = match snd (run t s) with Done => [] | t' => [t'] end ->
  invariant {| state := fst (run t s); tasks := ts |} /\
  interviewState (fst (run t s)) <> INTERVIEWING.
Proof.
  intros Hf Hp Ha Hph ->.
  destruct (run_feedback_task (Forall atomic) t s Hf Hp Ha)
    as (Ha' & Hp' & [[Hd Hr] | (q & k & Hq & Hk & Hs)]).
  - rewrite Hd. split; [|congruence].
    unfold invariant, tasks_ok, index_ok. simpl. rewrite Hr.
    repeat split; done.
  - rewrite Hq in *. rewrite Hph in Hs. split; [|congruence].
    unfold invariant, tasks_ok, index_ok. simpl. rewrite Hs.
    repeat split; try done.
    + by exists q, k.
    + by constructor.
Qed.

Lemma click_microphone (c : Config) (now : Z) (q : Question) :
  invariant c ->
  interviewState (state c) = INTERVIEWING ->
  questions (state c) !! currentQuestionIndex (state c) = Some q ->
  (invariant (update (startListening now) c) /\
   index_step c (update (startListening now) c)) /\
  (invariant (update (stopListening now) c) /\
   index_step c (update (stopListening now) c)).
Proof.
  intros Hinv Hph Hq. split.
  - rewrite update_same_phase;
      [apply invariant_frame; try done|];
      unfold startListening; by destruct (recognitionRef (state c)).
  - destruct (recognitionRef (state c)) eqn:Href; cycle 1.
    { rewrite update_same_phase;
        [apply invariant_frame; try done|];
        unfold stopListening; by rewrite Href. }
    pose proof (stopListening_atomic now (state c)) as Hatom.
    pose proof (stopListening_questions now (state c) Href) as Hqs.
    destruct Hinv as (Ht & Hx & Ha & Hpub). specialize (Hatom Ha).
    unfold tasks_ok in Ht. rewrite Hph in Ht.
    apply lookup_lt_Some in Hq.
    assert (Hlen : length (questions (stopListening now (state c)))
                   = length (questions (state c))).
    { by rewrite Hqs, length_imap. }
    destruct (Z.of_nat (currentQuestionIndex (state c))
                <? Z.of_nat (length (questions (state c))) - 1)%Z eqn:Hlt.
    + assert (Hst : interviewState (stopListening now (state c))
                    = INTERVIEWING /\
                    currentQuestionIndex (stopListening now (state c))
                    = currentQuestionIndex (state c) + 1).
      { unfold stopListening. rewrite Href, Hlt. simpl. done. }
      destruct Hst as [Hp' Hi'].
      rewrite update_same_phase by congruence. split.
      * unfold invariant, tasks_ok, index_ok. simpl.
        rewrite Hp', Hi', Hlen. repeat split; try done.
        intros _. right. apply Z.ltb_lt in Hlt. lia.
      * unfold index_step. simpl. intros _. case_decide; [|done].
        by right.
    + assert (Hst : interviewState (stopListening now (state c))
                    = AWAITING_FEEDBACK).
      { unfold stopListening. rewrite Href, Hlt. simpl. done. }
      unfold update, feedbackEffect. simpl. rewrite Hst, Hph.
      repeat case_decide; try done.
      unfold spawn. simpl.
      destruct (run _ _) as [s' t'] eqn:Hrun. rewrite Ht. simpl.
      pose proof (feedback_progress
                    (fetchFeedback (questions (stopListening now (state c))))
                    (stopListening now (state c))
                    (match t' with Done => [] | _ => [t'] end)
                    (loop_feedback_task _ _ _)
                    (loop_publishes_atomic _ _ _ Hatom) Hatom Hst) as Hprog.
      rewrite Hrun in Hprog. simpl in Hprog.
      destruct Hprog as [Hinv' Hne]; [by destruct t'|].
      split; [by destruct t'|].
      unfold index_step. simpl. done.
Qed.

Lemma questions_settled (c : Config) (n : nat) (jd : string)
    (k : result (list string) -> Async) (outcome : result (list string)) :
  invariant c ->
  tasks c !! n = Some (AwaitQuestions jd k) ->
  invariant (resume n (k outcome) c) /\
  index_step c (resume n (k outcome) c).
Proof.
  destruct c as [s ts]. simpl. intros (Ht & Hx & Ha & Hpub) Hn.
  unfold tasks_ok in Ht. simpl in Ht.
  destruct (interviewState s) eqn:Hph;
    try (rewrite Ht in Hn; done);
    try (destruct Ht as (q & k' & -> & _); by destruct n as [|[|n]]).
  destruct Ht as (t & -> & Ht). destruct n as [|[|n]]; try done.
  simpl in Hn. injection Hn as ->. simpl in Ht.
  destruct (Ht outcome) as [texts Hk].
  unfold resume. simpl. rewrite Hk. simpl.
  unfold feedbackEffect. simpl.
  split.
  - unfold invariant, tasks_ok, index_ok. simpl.
    repeat split; try done.
    + intros _. rewrite toQuestions_length.
      destruct texts; [by left | right; simpl; lia].
    + apply atomic_toQuestions.
  - unfold index_step. simpl. rewrite Hph. intros _. by case_decide.
Qed.

Lemma feedback_settled (c : Config) (n : nat) (q : Question)
    (k : result Feedback -> Async) (r : result Feedback) :
  invariant c ->
  tasks c !! n = Some (AwaitFeedback q k) ->
  invariant (resume n (k r) c) /\
  index_step c (resume n (k r) c).
Proof.
  destruct c as [s ts]. simpl. intros (Ht & Hx & Ha & Hpub) Hn.
  unfold tasks_ok in Ht. simpl in Ht.
  destruct (interviewState s) eqn:Hph;
    try (rewrite Ht in Hn; done).
  { destruct Ht as (t & -> & Ht). destruct n as [|[|n]]; try done.
    simpl in Hn. injection Hn as ->. done. }
  destruct Ht as (q' & k' & -> & Hk). destruct n as [|[|n]]; try done.
  simpl in Hn. injection Hn as -> ->.
  apply Forall_cons_1 in Hpub as [Hpub _]. simpl in Hpub.
  unfold resume. simpl.
  destruct (run (k r) s) as [s' t'] eqn:Hrun.
  pose proof (feedback_progress (k r) s
                (match t' with Done => [] | _ => [t'] end)
                (Hk r) (Hpub r) Ha Hph) as Hprog.
  rewrite Hrun in Hprog. simpl in Hprog.
  destruct Hprog as [Hinv' Hne]; [by destruct t'|].
  rewrite Hph.
  set (c' := {| state := s'; tasks := _ |}) in *.
  assert (Heff : feedbackEffect AWAITING_FEEDBACK c' = c').
  { unfold feedbackEffect. by repeat case_decide. }
  rewrite Heff. split; [done|]. unfold index_step. simpl. done.
Qed.

(** One event keeps the invariant and moves the index as allowed. *)
Lemma invariant_step (c : Config) (e : Event) (c' : Config) :
  invariant c -> handle e c = Some c' ->
  invariant c' /\ index_step c c'.
Proof.
  intros Hinv. pose proof Hinv as (Ht & Hx & Ha & Hpub).
  unfold tasks_ok in Ht.
  destruct e; simpl; intros He.
  - case_decide as Hph; [|done]. injection He as <-.
    rewrite update_not_awaiting by done. rewrite Hph in Ht.
    split.
    + unfold invariant, tasks_ok, index_ok. simpl. by repeat split.
    + unfold index_step. simpl. done.
  - case_decide as Hph; [|done]. injection He as <-.
    rewrite Hph in Ht. apply spawn_startInterview; [done..|congruence].
  - case_decide as Hph; [|done]. injection He as <-.
    rewrite update_same_phase by done. by apply invariant_frame.
  - case_decide as Hph; [|done].
    destruct (truthy_string _); [|done]. injection He as <-.
    rewrite Hph in Ht. apply spawn_startInterview; [done..|congruence].
  - case_decide as Hph; [|done].
    destruct (questions (state c) !! _) as [q|] eqn:Hq; [|done].
    destruct (click_microphone c now q Hinv Hph Hq) as [Hstart Hstop].
    destruct (isSpeaking _); [done|].
    destruct (isListening _); by injection He as <-.
  - case_decide as Hph; [|done]. injection He as <-.
    rewrite update_not_awaiting by done. rewrite Hph in Ht.
    split.
    + unfold invariant, tasks_ok, index_ok. simpl. by repeat split.
    + unfold index_step. simpl. done.
  - destruct (recognitionRef _); [|done]. injection He as <-.
    rewrite update_same_phase by (by rewrite onresult_eq).
    apply invariant_frame; try done; by rewrite onresult_eq.
  - injection He as <-. rewrite update_same_phase by done.
    by apply invariant_frame.
  - injection He as <-. rewrite update_same_phase by done.
    by apply invariant_frame.
  - destruct (tasks c !! n) as [[| | | |jd k|]|] eqn:Hn; try done.
    injection He as <-. by eapply questions_settled.
  - destruct (tasks c !! n) as [[| | | | |q k]|] eqn:Hn; try done.
    injection He as <-. by eapply feedback_settled.
Qed.

Lemma invariant_initial (supported : bool) :
  invariant (initialConfig supported).
Proof. unfold invariant, tasks_ok, index_ok. simpl. by repeat split. Qed.

Lemma reachable_invariant (c : Config) : reachable c -> invariant c.
Proof.
  induction 1 as [b|c e c' _ IH He]; [apply invariant_initial|].
  by destruct (invariant_step c e c' IH He).
Qed.


Lemma after_run_reachable (es : list Event) (c : Config) :
  handle_all es (initialConfig true) = Some c -> reachable (after_run es).
Proof.
  intros H. unfold after_run. rewrite H.
  eapply handle_all_reachable; [apply reachable_init | exact H].
Qed.



(** C7.  In every reachable configuration each question has [answer] and
    [audioDuration] both absent or both present, and so has every list a
    suspended function can still publish.  The one operation that sets
    them, the update of [stopListening], sets both; attaching feedback
    touches neither. *)
Theorem answer_and_duration_together (c : Config) :
  reachable c ->
  (forall i q, questions (state c) !! i = Some q ->
     (answer q = None /\ audioDuration q = None) \/
     (exists a d, answer q = Some a /\ audioDuration q = Some d)) /\
  Forall (publishes (Forall atomic)) (tasks c) /\
  (forall q a d,
     answer (with_answer q a d) = Some a /\
     audioDuration (with_answer q a d) = Some d) /\
  (forall q f,
     answer (with_feedback q f) = answer q /\
     audioDuration (with_feedback q f) = audioDuration q).
Proof.
  intros Hc. apply reachable_invariant in Hc.
  destruct Hc as (_ & _ & Ha & Hpub).
  split; [|by repeat split].
  intros i q Hq. pose proof (Forall_lookup_1 _ _ _ _ Ha Hq) as [H1 H2].
  destruct (answer q) as [a|], (audioDuration q) as [d|]; eauto.
  - by destruct H1 as [? ?].
  - by destruct H2 as [? ?].
Qed.

(** Witness of C7: after the first common question is answered, it has
    both an answer and a duration. *)
Lemma answer_and_duration_together_witness :
  exists q a d,
    questions (state (after_run first_answer_run)) !! 0 = Some q /\
    answer q = Some a /\ audioDuration q = Some d.
Proof.
  destruct (answer_and_duration_together (after_run first_answer_run)
              (after_run_reachable first_answer_run _ eq_refl))
    as (Hboth & _).
  eexists. destruct (Hboth 0 _ eq_refl) as [[Hnone _] | (a & d & Ha & Hd)].
  - discriminate Hnone.
  - exists a, d. split; [reflexivity|]. by split.
Defined.


(** * Further properties *)

(** ** Word count and captured answers *)

Lemma split_space_length (s : string) :
  length (split_space s) = S (spaces s).
Proof.
  induction s as [|c s IH]; simpl; [done|].
  destruct (Ascii.eqb c " "); simpl; [by rewrite IH|].
  destruct (split_space s); simpl in *; done.
Qed.

Lemma split_space_concat (s : string) :
  String.concat " " (split_space s) = s.
Proof.
  induction s as [|c s IH]; [done|]. simpl.
  pose proof (split_space_length s) as Hlen.
  destruct (Ascii.eqb c " ") eqn:Hc.
  - apply Ascii.eqb_eq in Hc as ->.
    destruct (split_space s) as [|w ws]; [done|].
    change (String.concat " " ("" :: w :: ws))
      with ("" +:+ " " +:+ String.concat " " (w :: ws)).
    by rewrite IH.
  - destruct (split_space s) as [|w [|x xs]]; [done| |].
    + simpl in *. by rewrite IH.
    + change (String.concat " " (String c w :: x :: xs))
        with (String c w +:+ " " +:+ String.concat " " (x :: xs)).
      change (String.concat " " (w :: x :: xs))
        with (w +:+ " " +:+ String.concat " " (x :: xs)) in IH.
      by rewrite append_cons, IH.
Qed.

(** X1.  The word count of the pace is the number of pieces between
    single spaces: the number of space characters plus one, never zero,
    and the pieces joined by single spaces give the answer back.  So the
    pace of a non-empty answer with a truthy duration is
    [Math.round((spaces + 1) / (audioDuration / 60))]. *)
Theorem word_count_is_spaces_plus_one (a : string) :
  length (split_space a) = S (spaces a) /\
  String.concat " " (split_space a) = a /\
  forall q d,
    answer q = Some a -> a <> "" ->
    audioDuration q = Some d -> truthy_number d = true ->
    wordsPerMinute q
    = Math_round (JS.of_nat (S (spaces a)) / (d / 60))%float.
Proof.
  split; [apply split_space_length|]. split; [apply split_space_concat|].
  intros q d Ha Hne Hd Ht. unfold wordsPerMinute.
  apply truthy_string_true in Hne.
  by rewrite Ha, Hd, Ht, Hne, split_space_length.
Qed.

Lemma split_space_app_space (s : string) :
  split_space (s +:+ " ") = split_space s ++ [""].
Proof.
  induction s as [|c s IH]; [done|].
  rewrite append_cons. simpl. rewrite IH.
  pose proof (split_space_length s) as Hlen.
  destruct (Ascii.eqb c " "); [done|].
  by destruct (split_space s).
Qed.

Lemma chunks_end_with_delimiter (events : list SpeechRecognitionEvent) :
  join (map final_chunk events) = "" \/
  exists body, join (map final_chunk events) = body +:+ ". ".
Proof.
  induction events as [|ev evs IH]; [by left|]. simpl.
  destruct IH as [-> | [body ->]].
  - rewrite append_nil_r. unfold final_chunk.
    destruct (truthy_string _); [right; eauto | by left].
  - right. exists (final_chunk ev +:+ body). by rewrite append_assoc.
Qed.

Lemma startListening_frame (now : Z) (s : State) :
  questions (startListening now s) = questions s /\
  currentQuestionIndex (startListening now s) = currentQuestionIndex s /\
  interviewState (startListening now s) = interviewState s /\
  recognitionRef (startListening now s) = recognitionRef s /\
  jobDescription (startListening now s) = jobDescription s.
Proof.
  unfold startListening. by destruct (recognitionRef s) eqn:H; simpl; rewrite ?H.
Qed.

(** X2.  A capture ([startListening], any recognition events,
    [stopListening]) stores an answer that is empty or ends with [". "];
    in the second case its last piece under [split(' ')] is empty, so the
    word count of the pace is one more than the number of pieces of the
    text before the final space. *)
Theorem captured_answer_ends_with_delimiter
    (s : State) (t0 t1 : Z) (events : list SpeechRecognitionEvent)
    (q : Question) :
  recognitionRef s = true ->
  questions s !! currentQuestionIndex s = Some q ->
  exists a,
    questions (stopListening t1 (onresults events (startListening t0 s)))
      !! currentQuestionIndex s
    = Some (with_answer q a (duration (Some t0) t1)) /\
    (a = "" \/
     exists body,
       a = body +:+ ". " /\
       split_space a = split_space (body +:+ ".") ++ [""] /\
       length (split_space a) = S (length (split_space (body +:+ ".")))).
Proof.
  intros Href Hq.
  destruct (startListening_frame t0 s) as (Hq0 & Hi0 & _ & Hr0 & _).
  destruct (onresults_frame events (startListening t0 s))
    as (Hqs & Hidx & Hr & Hrec & _).
  exists (finalTranscript (onresults events (startListening t0 s))).
  split.
  - rewrite stopListening_questions by (by rewrite Hr, Hr0).
    rewrite list_lookup_imap, Hqs, Hq0, Hidx, Hi0, Hq. simpl.
    rewrite Nat.eqb_refl, Hrec. unfold startListening. by rewrite Href.
  - rewrite onresults_finalTranscript.
    assert (finalTranscript (startListening t0 s) = "") as ->
      by (unfold startListening; by rewrite Href).
    rewrite append_nil_l.
    destruct (chunks_end_with_delimiter events) as [-> | [body ->]];
      [by left | right].
    exists body. split; [done|].
    assert (body +:+ ". " = (body +:+ ".") +:+ " ") as ->
      by (by rewrite append_assoc).
    rewrite split_space_app_space. split; [done|].
    rewrite length_app. simpl. lia.
Qed.

(** Witness of X2: one final fragment ["I write Rust"] is stored as
    ["I write Rust. "], counted as four words. *)
Lemma captured_answer_ends_with_delimiter_witness :
  exists a,
    questions (stopListening 3000
                 (onresults [spoken "I write Rust"]
                    (startListening 1000 interviewing_state))) !! 0
    = Some (with_answer (example_question 0 None None) a
              (duration (Some 1000%Z) 3000)) /\
    (a = "" \/ exists body, a = body +:+ ". ").
Proof.
  destruct (captured_answer_ends_with_delimiter interviewing_state
              1000 3000 [spoken "I write Rust"]
              (example_question 0 None None) eq_refl eq_refl)
    as (a & Ha & [-> | (body & Hb & _)]).
  - exists "". split; [exact Ha | by left].
  - exists a. split; [exact Ha | right; by exists body].
Defined.

Lemma prefix_append (a b : string) : String.prefix a (a +:+ b) = true.
Proof.
  induction a as [|c a IH]; [by destruct b|].
  rewrite append_cons. simpl. by destruct (ascii_dec c c).
Qed.

Lemma onresults_app (evs evs' : list SpeechRecognitionEvent) (s : State) :
  onresults (evs ++ evs') s = onresults evs' (onresults evs s).
Proof. unfold onresults. by rewrite fold_left_app. Qed.

(** X3.  Recognition events only ever append to the final-transcript
    buffer: the buffer before any sequence of events is a prefix of the
    buffer after it.  The interim buffer holds the interim text of the
    last event only, and the events touch neither the questions, the
    index nor the phase. *)
Theorem final_transcript_append_only
    (events : list SpeechRecognitionEvent) (s : State) :
  String.prefix (finalTranscript s) (finalTranscript (onresults events s))
  = true /\
  (forall event,
     interimTranscript (onresults (events ++ [event]) s)
     = join (interim_fragments event)) /\
  questions (onresults events s) = questions s /\
  currentQuestionIndex (onresults events s) = currentQuestionIndex s /\
  interviewState (onresults events s) = interviewState s.
Proof.
  split; [rewrite onresults_finalTranscript; apply prefix_append|].
  split.
  - intros ev. rewrite onresults_app. simpl. by rewrite onresult_eq.
  - by destruct (onresults_frame events s) as (-> & -> & _ & _ & ->).
Qed.

(** ** The pipeline: what it leaves alone, and its first await *)

(** X4.  Run to its end without interference, the pipeline changes only
    the phase and the feedback of answered questions: every other cell of
    the state is as before, the list keeps its length, each question
    keeps its id, text, answer and duration, and a question without a
    non-empty answer is not changed at all. *)
Theorem fetchFeedback_touches_feedback_only
    (generateQuestionsFromJD : string -> result (list string))
    (generateContent : nat -> Prompt -> result Feedback) (s : State) :
  let s' := fst (exec generateQuestionsFromJD generateContent undisturbed
                   (fetchFeedback (questions s)) 0 s) in
  s' = setInterviewState REVIEWING (setQuestions (questions s') s) /\
  length (questions s') = length (questions s) /\
  forall i q, questions s !! i = Some q ->
    exists q',
      questions s' !! i = Some q' /\
      id q' = id q /\ text q' = text q /\ answer q' = answer q /\
      audioDuration q' = audioDuration q /\
      (answered q = false -> q' = q).
Proof.
  intros s'. unfold s', fetchFeedback.
  rewrite exec_loop_state by done. simpl.
  change (drop 0 (questions s)) with (questions s).
  split; [done|]. split; [apply process_length|].
  intros i q Hq. rewrite process_lookup, Hq. simpl.
  eexists. split; [reflexivity|].
  destruct (answered q); [|done].
  by destruct (getAnswerFeedback _ q).
Qed.

Lemma run_loop_first n : forall i uq s,
  i + n = length uq ->
  match List.find answered (drop i uq) with
  | None =>
      run (fetchFeedback_loop n i uq) s = (setInterviewState REVIEWING s, Done)
  | Some q =>
      fst (run (fetchFeedback_loop n i uq) s) = s /\
      exists k, snd (run (fetchFeedback_loop n i uq) s) = AwaitFeedback q k
  end.
Proof.
  induction n as [|n IH]; intros i uq s Hlen.
  - by rewrite drop_ge by lia.
  - destruct (lookup_lt_is_Some_2 uq i) as [q Hq]; [lia|].
    rewrite (drop_S _ _ _ Hq). simpl. rewrite Hq. fold (answered q).
    destruct (answered q); [by eauto|]. apply IH. lia.
Qed.

(** X5.  [fetchFeedback] runs synchronously up to its first [await]: if
    no question has a non-empty answer it makes no call and sets the phase
    to [REVIEWING] at once; otherwise it leaves the state as it is and
    waits for the call on the first answered question. *)
Theorem fetchFeedback_first_await (qs : list Question) (s : State) :
  match List.find answered qs with
  | None => run (fetchFeedback qs) s = (setInterviewState REVIEWING s, Done)
  | Some q =>
      fst (run (fetchFeedback qs) s) = s /\
      exists k, snd (run (fetchFeedback qs) s) = AwaitFeedback q k
  end.
Proof. apply (run_loop_first (length qs) 0 qs s eq_refl). Qed.

(** ** The voice of [speak] *)

Lemma googleEnglish_english (v : SpeechSynthesisVoice) :
  googleEnglish v = true -> english v = true.
Proof. unfold googleEnglish, english. by intros [_ ?]%andb_true_iff. Qed.

(** X6.  [speak] picks a voice of the list, and none only when the list is
    empty.  It prefers the first voice that is Google and English, then
    the first English voice, then the first voice: if some voice is
    English so is the one picked, and if some voice is Google and English
    the one picked is the first such. *)
Theorem selectVoice_spec (voices : list SpeechSynthesisVoice) :
  (selectVoice voices = None <-> voices = []) /\
  (forall v, selectVoice voices = Some v -> In v voices) /\
  ((exists v, In v voices /\ english v = true) ->
   exists v, selectVoice voices = Some v /\ english v = true) /\
  ((exists v, In v voices /\ googleEnglish v = true) ->
   exists v, selectVoice voices = Some v /\ googleEnglish v = true /\
             List.find googleEnglish voices = Some v) /\
  ((forall v, In v voices -> googleEnglish v = false) ->
   selectVoice voices
   = match List.find english voices with
     | Some v => Some v
     | None => head voices
     end).
Proof.
  unfold selectVoice.
  destruct (List.find googleEnglish voices) as [g|] eqn:Hg.
  - apply find_some in Hg as Hg'. destruct Hg' as [Hin Hge].
    repeat split.
    + done.
    + intros ->. done.
    + by intros v [= <-].
    + intros _. exists g. eauto using googleEnglish_english.
    + intros _. by exists g.
    + intros Hno. rewrite (Hno g Hin) in Hge. done.
  - pose proof (find_none _ _ Hg) as Hnone.
    destruct (List.find english voices) as [e|] eqn:He.
    + apply find_some in He as He'. destruct He' as [Hin Hen].
      repeat split.
      * done.
      * intros ->. done.
      * by intros v [= <-].
      * intros _. by exists e.
      * intros (v & Hv & Hgv). by rewrite (Hnone v Hv) in Hgv.
    + pose proof (find_none _ _ He) as Hnoe.
      repeat split.
      * by destruct voices.
      * by intros ->.
      * destruct voices as [|v0 vs]; [done|]. intros v [= <-]. by left.
      * intros (v & Hv & Hev). by rewrite (Hnoe v Hv) in Hev.
      * intros (v & Hv & Hgv). by rewrite (Hnone v Hv) in Hgv.
Qed.

(** ** Sessions: what every reachable configuration satisfies *)

Lemma run_loop_cases n : forall i uq s,
  i + n = length uq ->
  run (fetchFeedback_loop n i uq) s = (setInterviewState REVIEWING s, Done) \/
  exists j q n',
    i <= j /\ uq !! j = Some q /\ answered q = true /\
    j + S n' = length uq /\
    run (fetchFeedback_loop n i uq) s
    = (s, AwaitFeedback q (fetchFeedback_continuation n' j uq q)).
Proof.
  induction n as [|n IH]; intros i uq s Hlen; [by left|].
  destruct (lookup_lt_is_Some_2 uq i) as [q Hq]; [lia|].
  simpl. rewrite Hq. fold (answered q).
  destruct (answered q) eqn:Ha.
  - right. exists i, q, n. repeat split; (done || lia).
  - destruct (IH (S i) uq s) as [H | (j & q' & n' & Hj & H)]; [lia|by left|].
    right. exists j, q', n'. split; [lia | done].
Qed.

Lemma not_listening_outside_interview (c : Config) :
  session c -> interviewState (state c) <> INTERVIEWING ->
  isListening (state c) = false.
Proof.
  intros Hs Hph. destruct (isListening (state c)) eqn:Hl; [|done].
  by destruct (session_listening c Hs Hl).
Qed.

Lemma phase_ok_frame (c : Config) (s' : State) :
  interviewState s' = interviewState (state c) ->
  questions s' = questions (state c) ->
  currentQuestionIndex s' = currentQuestionIndex (state c) ->
  jobDescription s' = jobDescription (state c) \/
  interviewState (state c) = GETTING_JOB_DESC ->
  phase_ok c -> phase_ok {| state := s'; tasks := tasks c |}.
Proof.
  intros Hp Hq Hi Hjd. unfold phase_ok, pipeline_pending. simpl.
  rewrite Hp, Hq, Hi.
  destruct (interviewState (state c)) eqn:Hph;
    destruct Hjd as [Hjd | Hjd]; rewrite ?Hjd; done.
Qed.

Lemma session_frame (c : Config) (s' : State) :
  interviewState s' = interviewState (state c) ->
  questions s' = questions (state c) ->
  currentQuestionIndex s' = currentQuestionIndex (state c) ->
  jobDescription s' = jobDescription (state c) \/
  interviewState (state c) = GETTING_JOB_DESC ->
  isListening s' = isListening (state c) ->
  recognitionRef s' = recognitionRef (state c) ->
  recordingStartTime s' = recordingStartTime (state c) ->
  session c ->
  session {| state := s'; tasks := tasks c |} /\
  phase_edge c {| state := s'; tasks := tasks c |} /\
  questions_frozen c {| state := s'; tasks := tasks c |}.
Proof.
  intros Hp Hq Hi Hjd Hl Hr Ht [H1 H2 H3 H4]. split; [|split].
  - split; simpl; rewrite ?Hp, ?Hq, ?Hi, ?Hl, ?Hr, ?Ht; try done.
    by apply phase_ok_frame.
  - by left.
  - intros _ _. simpl. rewrite Hq. split; [done|].
    intros i q q' Hq1 Hq2. rewrite Hq1 in Hq2. by injection Hq2 as <-.
Qed.

Lemma ids_toQuestions (texts : list string) (i : nat) (q : Question) :
  toQuestions texts !! i = Some q ->
  id q = i /\ answer q = None /\ feedback q = None /\
  audioDuration q = None.
Proof.
  rewrite toQuestions_lookup. destruct (texts !! i); simpl; [|done].
  by intros [= <-].
Qed.

(** The configuration in which [startInterview] ends. *)
Lemma session_fresh_interview (s : State) (texts : list string) :
  isListening s = false ->
  session
    {| state := setInterviewState INTERVIEWING
                  (setCurrentQuestionIndex 0
                     (setQuestions (toQuestions texts) s));
       tasks := [] |}.
Proof.
  intros Hl. split; simpl.
  - by rewrite Hl.
  - done.
  - intros i q Hq. by destruct (ids_toQuestions texts i q Hq).
  - unfold phase_ok. simpl. split; [done|]. intros i q Hq.
    destruct (ids_toQuestions texts i q Hq) as (_ & Ha & Hf & _).
    repeat split; try done. lia.
Qed.

(** The configuration in which the pipeline is after running from
    iteration [i] to its next [await] or its end. *)
Lemma pipeline_enter (n i : nat) (s : State) :
  interviewState s = AWAITING_FEEDBACK ->
  i + n = length (questions s) ->
  all_recorded (questions s) ->
  (forall j q, i <= j -> questions s !! j = Some q -> feedback q = None) ->
  (fst (run (fetchFeedback_loop n i (questions s)) s) = s /\
   (exists n' j, i <= j /\
      pipeline_pending n' j
        {| state := s;
           tasks := match snd (run (fetchFeedback_loop n i (questions s)) s)
                    with Done => [] | t' => [t'] end |})) \/
  (fst (run (fetchFeedback_loop n i (questions s)) s)
   = setInterviewState REVIEWING s /\
   snd (run (fetchFeedback_loop n i (questions s)) s) = Done).
Proof.
  intros Hph Hlen Hrec Hnone.
  destruct (run_loop_cases n i (questions s) s Hlen)
    as [-> | (j & q & n' & Hj & Hq & Ha & Hlen' & ->)]; [by right|].
  left. split; [done|]. exists n', j. split; [done|]. exists q. simpl.
  repeat split; try done. intros j' q' Hj'. apply Hnone. lia.
Qed.

Lemma session_pipeline (n i : nat) (s : State) :
  interviewState s = AWAITING_FEEDBACK ->
  i + n = length (questions s) ->
  all_recorded (questions s) ->
  (forall j q, i <= j -> questions s !! j = Some q -> feedback q = None) ->
  (forall j q, questions s !! j = Some q -> id q = j) ->
  isListening s = false -> recognitionRef s = true ->
  session
    {| state := fst (run (fetchFeedback_loop n i (questions s)) s);
       tasks := match snd (run (fetchFeedback_loop n i (questions s)) s)
                with Done => [] | t' => [t'] end |} /\
  (fst (run (fetchFeedback_loop n i (questions s)) s) = s \/
   fst (run (fetchFeedback_loop n i (questions s)) s)
   = setInterviewState REVIEWING s).
Proof.
  intros Hph Hlen Hrec Hnone Hids Hl Hr.
  destruct (pipeline_enter n i s Hph Hlen Hrec Hnone)
    as [[-> (n' & j & Hj & Hpend)] | [-> ->]].
  - split; [|by left]. split; simpl; rewrite ?Hl, ?Hr; try done.
    unfold phase_ok. simpl. rewrite Hph. split; [done|]. by exists n', j.
  - split; [|by right]. split; simpl; rewrite ?Hl, ?Hr; try done.
Qed.

Lemma stopListening_cells (now : Z) (s : State) :
  recognitionRef s = true ->
  isListening (stopListening now s) = false /\
  recognitionRef (stopListening now s) = true /\
  jobDescription (stopListening now s) = jobDescription s /\
  (forall i, questions (stopListening now s) !! i
     = (fun q => if Nat.eqb i (currentQuestionIndex s)
                 then with_answer q (finalTranscript s)
                        (duration (recordingStartTime s) now)
                 else q) <$> questions s !! i) /\
  length (questions (stopListening now s)) = length (questions s) /\
  if (Z.of_nat (currentQuestionIndex s)
        <? Z.of_nat (length (questions s)) - 1)%Z
  then interviewState (stopListening now s) = interviewState s /\
       currentQuestionIndex (stopListening now s)
       = currentQuestionIndex s + 1
  else interviewState (stopListening now s) = AWAITING_FEEDBACK /\
       currentQuestionIndex (stopListening now s) = currentQuestionIndex s.
Proof.
  intros Href.
  pose proof (stopListening_questions now s Href) as Hqs.
  split; [|split; [|split; [|split; [|split]]]].
  - unfold stopListening. rewrite Href. by destruct (_ <? _)%Z.
  - unfold stopListening. rewrite Href. by destruct (_ <? _)%Z.
  - unfold stopListening. rewrite Href. by destruct (_ <? _)%Z.
  - intros i. by rewrite Hqs, list_lookup_imap.
  - by rewrite Hqs, length_imap.
  - unfold stopListening. rewrite Href. by destruct (_ <? _)%Z.
Qed.

Lemma session_stop (c : Config) (now : Z) (q0 : Question) :
  session c ->
  interviewState (state c) = INTERVIEWING ->
  questions (state c) !! currentQuestionIndex (state c) = Some q0 ->
  isListening (state c) = true ->
  session (update (stopListening now) c) /\
  phase_edge c (update (stopListening now) c) /\
  questions_frozen c (update (stopListening now) c).
Proof.
  intros Hs Hph Hq0 Hl.
  destruct (session_listening c Hs Hl) as (_ & Href & _).
  pose proof (session_phase c Hs) as Hok. unfold phase_ok in Hok.
  rewrite Hph in Hok. destruct Hok as [Htasks Hnone].
  pose proof (session_ids c Hs) as Hids.
  destruct (stopListening_cells now (state c) Href)
    as (Hl' & Hr' & Hjd' & Hlook & Hlen & Hcase).
  set (s' := stopListening now (state c)) in *.
  assert (Hids' : forall i q, questions s' !! i = Some q -> id q = i).
  { intros i q. rewrite Hlook.
    destruct (questions (state c) !! i) as [q1|] eqn:Hq1; simpl; [|done].
    intros [= <-]. rewrite <- (Hids i q1 Hq1). by destruct (Nat.eqb _ _). }
  assert (Hfrozen : length (questions s') = length (questions (state c)) /\
            forall i q q',
              questions (state c) !! i = Some q ->
              questions s' !! i = Some q' ->
              id q' = id q /\ text q' = text q /\
              (is_Some (answer q) ->
               answer q' = answer q /\ audioDuration q' = audioDuration q) /\
              (is_Some (feedback q) -> feedback q' = feedback q)).
  { split; [done|]. intros i q q' Hq. rewrite Hlook, Hq. simpl.
    intros [= <-]. destruct (Nat.eqb_spec i (currentQuestionIndex (state c)))
      as [-> | Hne]; [|done].
    destruct (Hnone _ q Hq) as (_ & _ & Hn). specialize (Hn (le_n _)).
    split; [done|]. split; [done|]. split; [|done].
    intros [a Ha]. congruence. }
  apply lookup_lt_Some in Hq0 as Hlt0.
  destruct (Z.of_nat (currentQuestionIndex (state c))
              <? Z.of_nat (length (questions (state c))) - 1)%Z eqn:Hlt.
  - destruct Hcase as [Hp' Hi'].
    rewrite update_same_phase by done. fold s'. split; [|split].
    + split; simpl; rewrite ?Hl', ?Hr'; try done.
      unfold phase_ok. simpl. rewrite Hp', Hph, Hi'. split; [done|].
      intros i q. rewrite Hlook.
      destruct (questions (state c) !! i) as [q1|] eqn:Hq1; simpl; [|done].
      intros [= <-]. destruct (Hnone i q1 Hq1) as (Hf & Hbefore & Hafter).
      destruct (Nat.eqb_spec i (currentQuestionIndex (state c)))
        as [-> | Hne]; simpl.
      * split; [done|]. split; [eauto | lia].
      * split; [done|]. split; intros Hi; [apply Hbefore | apply Hafter]; lia.
    + left. done.
    + intros _ _. exact Hfrozen.
  - destruct Hcase as [Hp' Hi'].
    assert (Hrec : all_recorded (questions s')).
    { intros i q. rewrite Hlook.
      destruct (questions (state c) !! i) as [q1|] eqn:Hq1; simpl; [|done].
      intros [= <-]. destruct (Hnone i q1 Hq1) as (Hf & Hbefore & _).
      apply lookup_lt_Some in Hq1 as Hi. apply Z.ltb_ge in Hlt.
      destruct (Nat.eqb_spec i (currentQuestionIndex (state c)))
        as [-> | Hne]; simpl.
      - split; [eauto|]. rewrite Hf. by intros [? ?].
      - split; [apply Hbefore; lia|]. rewrite Hf. by intros [? ?]. }
    assert (Hnofb : forall j q, 0 <= j -> questions s' !! j = Some q ->
                      feedback q = None).
    { intros j q _. rewrite Hlook.
      destruct (questions (state c) !! j) as [q1|] eqn:Hq1; simpl; [|done].
      intros [= <-]. destruct (Hnone j q1 Hq1) as (Hf & _).
      by destruct (Nat.eqb _ _). }
    destruct (session_pipeline (length (questions s')) 0 s'
                Hp' eq_refl Hrec Hnofb Hids' Hl' Hr') as [Hses Hst].
    unfold update, feedbackEffect. simpl. fold s'. rewrite Hp', Hph.
    repeat case_decide; try done.
    unfold spawn, fetchFeedback. simpl. rewrite Htasks.
    destruct (run (fetchFeedback_loop (length (questions s')) 0
                     (questions s')) s') as [s'' t'] eqn:Hrun.
    simpl in Hses, Hst.
    split; [by destruct t'|].
    assert (Hqs'' : questions s'' = questions s' /\
              (interviewState s'' = AWAITING_FEEDBACK \/
               interviewState s'' = REVIEWING)).
    { destruct Hst as [-> | ->]; simpl; auto. }
    destruct Hqs'' as [Hqs'' Hph''].
    split.
    + right. simpl. rewrite Hph. unfold phase_edges.
      destruct Hph'' as [-> | ->]; simpl; auto 10.
    + intros _ _. simpl. rewrite Hqs''. exact Hfrozen.
Qed.

Lemma feedbackEffect_awaiting (c : Config) :
  feedbackEffect AWAITING_FEEDBACK c = c.
Proof. unfold feedbackEffect. by repeat case_decide. Qed.

Lemma supported_when_recorded (c : Config) :
  session c ->
  interviewState (state c) = AWAITING_FEEDBACK \/
  interviewState (state c) = REVIEWING ->
  recognitionRef (state c) = true.
Proof.
  intros Hs Hph. destruct (recognitionRef (state c)) eqn:Hr; [done|].
  destruct (session_unsupported c Hs Hr) as (_ & H1 & H2).
  by destruct Hph.
Qed.

Lemma session_settle (c : Config) (m : nat) (q : Question)
    (k : result Feedback -> Async) (r : result Feedback) :
  session c ->
  tasks c !! m = Some (AwaitFeedback q k) ->
  session (resume m (k r) c) /\
  phase_edge c (resume m (k r) c) /\
  questions_frozen c (resume m (k r) c).
Proof.
  intros Hs Hm.
  pose proof (session_phase c Hs) as Hok. unfold phase_ok in Hok.
  destruct (interviewState (state c)) eqn:Hph;
    try (destruct Hok as (_ & _ & _ & Ht); by rewrite Ht in Hm);
    try (destruct Hok as (_ & _ & Ht); by rewrite Ht in Hm);
    try (destruct Hok as (Ht & _); by rewrite Ht in Hm).
  { destruct Hok as (_ & _ & _ & k0 & Ht & _). rewrite Ht in Hm.
    by destruct m as [|[|m]]. }
  destruct Hok as (Hrec & n & i & q1 & Ht & Hqi & Ha & Hlen & Hnone).
  rewrite Ht in Hm. destruct m as [|[|m]]; try done.
  simpl in Hm. injection Hm as -> <-.
  pose proof (session_ids c Hs) as Hids.
  assert (Hl : isListening (state c) = false)
    by (apply not_listening_outside_interview; [done | congruence]).
  assert (Hr : recognitionRef (state c) = true)
    by (apply supported_when_recorded; auto).
  destruct c as [s ts]. simpl in *. subst ts.
  unfold resume. simpl. rewrite Hph.
  destruct r as [f|e]; unfold fetchFeedback_continuation; simpl.
  - set (updated := <[i:=with_feedback q f]> (questions s)).
    set (s1 := setQuestions updated s).
    assert (Hup : forall j q',
              updated !! j = Some q' ->
              exists q0, questions s !! j = Some q0 /\
                (q' = q0 /\ j <> i \/ q' = with_feedback q f /\ j = i /\ q0 = q)).
    { intros j q'. unfold updated. destruct (decide (i = j)) as [<- | Hne].
      - rewrite list_lookup_insert_eq by (by eapply lookup_lt_Some).
        intros [= <-]. exists q. auto.
      - rewrite list_lookup_insert_ne by done. intros Hj. exists q'. auto. }
    pose proof (session_pipeline n (S i) s1) as Hpipe.
    change (questions s1) with updated in Hpipe.
    destruct (run (fetchFeedback_loop n (S i) updated) s1)
      as [s'' t'] eqn:Hrun.
    destruct Hpipe as [Hses Hst]; try done.
    { unfold updated. rewrite length_insert. lia. }
    { intros j q' Hj. destruct (Hup j q' Hj)
        as (q0 & Hq0 & [[-> _] | (-> & -> & ->)]).
      - by apply (Hrec j).
      - simpl. destruct (Hrec i q Hqi) as [Hans _]. done. }
    { intros j q' Hle Hj. destruct (Hup j q' Hj)
        as (q0 & Hq0 & [[-> _] | (-> & -> & ->)]); [|lia].
      apply (Hnone j); [lia | done]. }
    { intros j q' Hj. destruct (Hup j q' Hj)
        as (q0 & Hq0 & [[-> _] | (-> & -> & ->)]); simpl; by apply Hids. }
    simpl in Hses, Hst.
    rewrite feedbackEffect_awaiting.
    split; [by destruct t'|].
    assert (Hqs'' : questions s'' = updated /\
              (interviewState s'' = AWAITING_FEEDBACK \/
               interviewState s'' = REVIEWING)).
    { destruct Hst as [-> | ->]; simpl; auto. }
    destruct Hqs'' as [Hqs'' Hph'']. split.
    + unfold phase_edge. simpl. rewrite Hph.
      destruct Hph'' as [-> | ->]; [by left | right]. simpl. auto 10.
    + intros _ _. simpl. rewrite Hqs''. split.
      * unfold updated. by rewrite length_insert.
      * intros j q0 q' Hq0 Hj. destruct (Hup j q' Hj)
          as (q2 & Hq2 & [[-> _] | (-> & -> & ->)]).
        -- rewrite Hq0 in Hq2. by injection Hq2 as ->.
        -- rewrite Hq0 in Hqi. injection Hqi as ->.
           split; [done|]. split; [done|]. split; [done|].
           intros [f0 Hf0]. rewrite (Hnone i q) in Hf0; done.
  - pose proof (session_pipeline n (S i) s) as Hpipe.
    destruct (run (fetchFeedback_loop n (S i) (questions s)) s)
      as [s'' t'] eqn:Hrun.
    destruct Hpipe as [Hses Hst]; try done.
    { lia. }
    { intros j q' Hle Hj. apply (Hnone j); [lia | done]. }
    simpl in Hses, Hst.
    rewrite feedbackEffect_awaiting.
    split; [by destruct t'|].
    assert (Hqs'' : questions s'' = questions s /\
              (interviewState s'' = AWAITING_FEEDBACK \/
               interviewState s'' = REVIEWING)).
    { destruct Hst as [-> | ->]; simpl; auto. }
    destruct Hqs'' as [Hqs'' Hph'']. split.
    + unfold phase_edge. simpl. rewrite Hph.
      destruct Hph'' as [-> | ->]; [by left | right]. simpl. auto 10.
    + intros _ _. simpl. rewrite Hqs''. split; [done|].
      intros j q0 q' Hq0 Hj. rewrite Hq0 in Hj. by injection Hj as ->.
Qed.

Lemma not_in_session_frozen (c c' : Config) :
  ~ in_session (interviewState (state c)) \/
  ~ in_session (interviewState (state c')) ->
  questions_frozen c c'.
Proof. intros [H | H] H1 H2; by destruct H. Qed.

Lemma session_spawn_start (c : Config) :
  session c ->
  interviewState (state c) = NOT_STARTED \/
  (interviewState (state c) = GETTING_JOB_DESC /\
   truthy_string (jobDescription (state c)) = true) ->
  session (spawn (startInterview (jobDescription (state c))) c) /\
  phase_edge c (spawn (startInterview (jobDescription (state c))) c) /\
  questions_frozen c (spawn (startInterview (jobDescription (state c))) c).
Proof.
  intros Hs Hph.
  pose proof (session_phase c Hs) as Hok. unfold phase_ok in Hok.
  assert (Hl : isListening (state c) = false).
  { apply not_listening_outside_interview; [done|].
    destruct Hph as [-> | [-> _]]; done. }
  destruct c as [s ts]. simpl in *.
  destruct Hph as [Hph | [Hph Htruthy]]; rewrite Hph in Hok.
  - destruct Hok as (Hjd & Hqs & Hi & ->). rewrite Hjd.
    unfold spawn, startInterview. simpl. split; [|split].
    + exact (session_fresh_interview
               (setInterviewState GENERATING_QUESTIONS s)
               PRESET_QUESTIONS Hl).
    + right. simpl. rewrite Hph. simpl. auto.
    + apply not_in_session_frozen. left. simpl. rewrite Hph.
      by intros [? | [? | ?]].
  - destruct Hok as (Hqs & Hi & ->).
    unfold spawn, startInterview. rewrite Htruthy. simpl. split; [|split].
    + split; simpl;
        [ by rewrite Hl | by rewrite Hi | by rewrite Hqs | ].
      unfold phase_ok. simpl.
      split; [done|]. split; [done|].
      split; [by apply truthy_string_true|].
      eexists. split; [reflexivity|].
      unfold startInterview. by rewrite Htruthy.
    + right. simpl. rewrite Hph. simpl. auto.
    + apply not_in_session_frozen. left. simpl. rewrite Hph.
      by intros [? | [? | ?]].
Qed.

Lemma session_questions_settled (c : Config) (m : nat) (jd : string)
    (k : result (list string) -> Async) (outcome : result (list string)) :
  session c ->
  tasks c !! m = Some (AwaitQuestions jd k) ->
  session (resume m (k outcome) c) /\
  phase_edge c (resume m (k outcome) c) /\
  questions_frozen c (resume m (k outcome) c).
Proof.
  intros Hs Hm.
  pose proof (session_phase c Hs) as Hok. unfold phase_ok in Hok.
  destruct (interviewState (state c)) eqn:Hph;
    try (destruct Hok as (_ & _ & _ & Ht); by rewrite Ht in Hm);
    try (destruct Hok as (_ & _ & Ht); by rewrite Ht in Hm);
    try (destruct Hok as (Ht & _); by rewrite Ht in Hm);
    try (destruct Hok as (_ & n & i & q & Ht & _); rewrite Ht in Hm;
         by destruct m as [|[|m]]).
  destruct Hok as (Hqs & Hi & Hjd & k0 & Ht & Hk0).
  rewrite Ht in Hm. destruct m as [|[|m]]; try done.
  simpl in Hm. injection Hm as <- <-.
  assert (Hl : isListening (state c) = false)
    by (apply not_listening_outside_interview; [done | congruence]).
  apply truthy_string_true in Hjd. unfold startInterview in Hk0.
  rewrite Hjd in Hk0. injection Hk0 as <-.
  destruct c as [s ts]. simpl in *. subst ts.
  unfold resume.
  assert (Hrun : exists texts,
            run (match outcome with
                 | Ok generatedQs =>
                     SetQuestions (toQuestions generatedQs)
                       (SetCurrentQuestionIndex 0
                          (SetInterviewState INTERVIEWING Done))
                 | Err _ =>
                     SetQuestions (toQuestions PRESET_QUESTIONS)
                       (SetCurrentQuestionIndex 0
                          (SetInterviewState INTERVIEWING Done))
                 end) s
            = (setInterviewState INTERVIEWING
                 (setCurrentQuestionIndex 0
                    (setQuestions (toQuestions texts) s)), Done)).
  { destruct outcome as [l|e]; eexists; reflexivity. }
  destruct Hrun as [texts Hrun]. simpl. rewrite Hrun. simpl.
  unfold feedbackEffect. simpl. split; [|split].
  - by apply session_fresh_interview.
  - right. simpl. rewrite Hph. simpl. auto 10.
  - apply not_in_session_frozen. left. simpl. rewrite Hph.
    by intros [? | [? | ?]].
Qed.

(** One event keeps the session invariant, changes the phase along an
    edge, and keeps the questions of a session. *)
Lemma session_step (c : Config) (e : Event) (c' : Config) :
  session c -> handle e c = Some c' ->
  session c' /\ phase_edge c c' /\ questions_frozen c c'.
Proof.
  intros Hs. pose proof (session_phase c Hs) as Hok.
  unfold phase_ok in Hok.
  destruct e; simpl; intros He.
  - case_decide as Hph; [|done]. injection He as <-.
    rewrite update_not_awaiting by done. rewrite Hph in Hok.
    destruct Hok as (Hjd & Hqs & Hi & Ht).
    assert (Hl : isListening (state c) = false)
      by (apply not_listening_outside_interview; [done | congruence]).
    split; [|split].
    + pose proof (session_unsupported c Hs) as Hun.
      split; simpl;
        [ by rewrite Hl | intros Hr; by destruct (Hun Hr)
        | by apply (session_ids c Hs) | ].
      unfold phase_ok. simpl. done.
    + right. simpl. rewrite Hph. simpl. auto.
    + apply not_in_session_frozen. left. rewrite Hph.
      by intros [? | [? | ?]].
  - case_decide as Hph; [|done]. injection He as <-.
    apply session_spawn_start; auto.
  - case_decide as Hph; [|done]. injection He as <-.
    rewrite update_same_phase by done. apply session_frame; auto.
  - case_decide as Hph; [|done].
    destruct (truthy_string _) eqn:Htruthy; [|done]. injection He as <-.
    apply session_spawn_start; auto.
  - case_decide as Hph; [|done].
    destruct (questions (state c) !! _) as [q|] eqn:Hq; [|done].
    destruct (isSpeaking _); [done|].
    destruct (isListening (state c)) eqn:Hl; injection He as <-.
    + by eapply session_stop.
    + destruct (startListening_frame now (state c))
        as (Hq' & Hi' & Hp' & Hr' & Hjd').
      rewrite update_same_phase by done.
      destruct (recognitionRef (state c)) eqn:Href.
      * split; [|split].
        -- split; simpl.
           ++ intros _. split; [by rewrite Hp'|]. split; [done|].
              unfold startListening. rewrite Href. simpl. eauto.
           ++ by rewrite Hr'.
           ++ rewrite Hq'. by apply (session_ids c Hs).
           ++ apply phase_ok_frame; auto.
        -- by left.
        -- intros _ _. simpl. rewrite Hq'. split; [done|].
           intros i q0 q' H1 H2. rewrite H1 in H2. by injection H2 as <-.
      * assert (startListening now (state c) = state c) as ->
          by (unfold startListening; by rewrite Href).
        apply session_frame; auto.
  - case_decide as Hph; [|done]. injection He as <-.
    rewrite update_not_awaiting by done. rewrite Hph in Hok.
    destruct Hok as (Ht & _).
    assert (Hl : isListening (state c) = false)
      by (apply not_listening_outside_interview; [done | congruence]).
    split; [|split].
    + split; simpl; [by rewrite Hl | done | done | done].
    + right. simpl. rewrite Hph. simpl. auto 10.
    + apply not_in_session_frozen. right. simpl. by intros [? | [? | ?]].
  - destruct (recognitionRef (state c)) eqn:Href; [|done].
    injection He as <-.
    rewrite update_same_phase by (by rewrite onresult_eq).
    apply session_frame; rewrite ?onresult_eq; simpl; auto.
  - injection He as <-. rewrite update_same_phase by done.
    apply session_frame; auto.
  - injection He as <-. rewrite update_same_phase by done.
    apply session_frame; auto.
  - destruct (tasks c !! n) as [[| | | |jd k|]|] eqn:Hn; try done.
    injection He as <-. by eapply session_questions_settled.
  - destruct (tasks c !! n) as [[| | | | |q k]|] eqn:Hn; try done.
    injection He as <-. by eapply session_settle.
Qed.

Lemma session_initial (supported : bool) : session (initialConfig supported).
Proof. split; simpl; try done. Qed.

Lemma reachable_session (c : Config) : reachable c -> session c.
Proof.
  induction 1 as [b|c e c' _ IH He]; [apply session_initial|].
  by destruct (session_step c e c' IH He).
Qed.

(** ** What every reachable configuration satisfies *)

Lemma first_answer_config_reachable : reachable first_answer_config.
Proof.
  apply (handle_all_reachable first_answer_run (initialConfig true));
    [apply reachable_init | vm_compute; reflexivity].
Qed.

Lemma listening_config_reachable : reachable listening_config.
Proof.
  apply (handle_all_reachable
           [ClickUseCommonQuestions; ClickMicrophone 1000]
           (initialConfig true));
    [apply reachable_init | vm_compute; reflexivity].
Qed.

Lemma pending_config_reachable : reachable pending_config.
Proof.
  apply (handle_all_reachable one_question_run (initialConfig true));
    [apply reachable_init | vm_compute; reflexivity].
Qed.

Lemma reviewed_config_reachable : reachable reviewed_config.
Proof.
  apply (handle_all_reachable reviewed_run (initialConfig true));
    [apply reachable_init | vm_compute; reflexivity].
Qed.

(** ** Reset and the pipeline (C4) *)





(** X7.  In every reachable configuration the id of each question is its
    position in the list, so the ids are pairwise distinct and ascend. *)
Theorem ids_are_positions (c : Config) :
  reachable c ->
  (forall i q, questions (state c) !! i = Some q -> id q = i) /\
  map id (questions (state c)) = seq 0 (length (questions (state c))) /\
  NoDup (map id (questions (state c))).
Proof.
  intros Hc. apply reachable_session in Hc.
  pose proof (session_ids c Hc) as Hids.
  assert (Hseq : map id (questions (state c))
                 = seq 0 (length (questions (state c)))).
  { apply list_eq. intros i. rewrite list_lookup_fmap.
    destruct (questions (state c) !! i) as [q|] eqn:Hq; simpl.
    - rewrite (Hids i q Hq). symmetry. apply lookup_seq.
      split; [done|]. by apply lookup_lt_Some in Hq.
    - symmetry. apply lookup_seq_ge. by apply lookup_ge_None. }
  split; [done|]. split; [done|]. rewrite Hseq. apply NoDup_seq.
Qed.

Lemma ids_are_positions_witness :
  map id (questions (state first_answer_config))
  = seq 0 (length (questions (state first_answer_config))).
Proof.
  destruct (ids_are_positions first_answer_config
              first_answer_config_reachable) as (_ & Hseq & _).
  exact Hseq.
Defined.

(** X8.  Answers are recorded in order.  While interviewing, exactly the
    questions before the current one have an answer and none has
    feedback; once the phase is [AWAITING_FEEDBACK] or [REVIEWING] every
    question has an answer (possibly ['']) and a duration. *)
Theorem answers_recorded_in_order (c : Config) :
  reachable c ->
  (interviewState (state c) = INTERVIEWING ->
   forall i q, questions (state c) !! i = Some q ->
     feedback q = None /\
     (i < currentQuestionIndex (state c) -> is_Some (answer q)) /\
     (currentQuestionIndex (state c) <= i -> answer q = None)) /\
  (interviewState (state c) = AWAITING_FEEDBACK \/
   interviewState (state c) = REVIEWING ->
   forall i q, questions (state c) !! i = Some q ->
     is_Some (answer q) /\ is_Some (audioDuration q)).
Proof.
  intros Hc. pose proof (reachable_invariant c Hc) as (_ & _ & Hatom & _).
  apply reachable_session in Hc.
  pose proof (session_phase c Hc) as Hok. unfold phase_ok in Hok.
  split.
  - intros Hph. rewrite Hph in Hok. by destruct Hok as [_ Hnone].
  - intros Hph i q Hq.
    assert (Hrec : all_recorded (questions (state c))).
    { destruct Hph as [Hph | Hph]; rewrite Hph in Hok; by destruct Hok. }
    destruct (Hrec i q Hq) as [Ha _]. split; [done|].
    by apply (Forall_lookup_1 _ _ _ _ Hatom Hq).
Qed.

Lemma answers_recorded_in_order_witness :
  interviewState (state first_answer_config) = INTERVIEWING /\
  exists q,
    questions (state first_answer_config) !! 0 = Some q /\
    is_Some (answer q) /\ feedback q = None.
Proof.
  split; [reflexivity|]. eexists. split; [reflexivity|].
  destruct (answers_recorded_in_order first_answer_config
              first_answer_config_reachable) as (Hint & _).
  destruct (Hint eq_refl 0 _ eq_refl) as (Hf & Hbefore & _).
  split; [exact (Hbefore (le_n 1)) | exact Hf].
Defined.

(** X9.  Feedback is only ever attached to a question with a non-empty
    answer, and only once the interview is over: in every reachable
    configuration a question with feedback has a truthy answer and the
    phase is [AWAITING_FEEDBACK] or [REVIEWING]. *)
Theorem feedback_only_for_answered (c : Config) :
  reachable c ->
  forall i q f,
    questions (state c) !! i = Some q -> feedback q = Some f ->
    answered q = true /\
    (interviewState (state c) = AWAITING_FEEDBACK \/
     interviewState (state c) = REVIEWING).
Proof.
  intros Hc i q f Hq Hf. apply reachable_session in Hc.
  pose proof (session_phase c Hc) as Hok. unfold phase_ok in Hok.
  destruct (interviewState (state c)) eqn:Hph.
  - destruct Hok as (_ & Hqs & _). by rewrite Hqs in Hq.
  - destruct Hok as (Hqs & _). by rewrite Hqs in Hq.
  - destruct Hok as (Hqs & _). by rewrite Hqs in Hq.
  - destruct Hok as (_ & Hnone). destruct (Hnone i q Hq) as (Hn & _).
    congruence.
  - destruct Hok as (Hrec & _). destruct (Hrec i q Hq) as [_ Ha].
    split; [apply Ha; eauto | by left].
  - destruct Hok as (_ & Hrec). destruct (Hrec i q Hq) as [_ Ha].
    split; [apply Ha; eauto | by right].
Qed.

Lemma feedback_only_for_answered_witness :
  exists q,
    questions (state reviewed_config) !! 0 = Some q /\
    feedback q = Some example_feedback /\ answered q = true.
Proof.
  eexists. split; [reflexivity|]. split; [reflexivity|].
  exact (proj1 (feedback_only_for_answered reviewed_config
                  reviewed_config_reachable 0 _ _ eq_refl eq_refl)).
Defined.

(** X10.  Outside a session the state is clean: in phase [NOT_STARTED]
    the job description is empty, there are no questions, the index is 0
    and nothing is pending; in [GETTING_JOB_DESC] and
    [GENERATING_QUESTIONS] there are still no questions.  So "Use Common
    Questions" always starts the interview at once on the five preset
    questions, without consulting the generation service. *)
Theorem idle_phases_are_clean (c : Config) :
  reachable c ->
  (interviewState (state c) = NOT_STARTED ->
   jobDescription (state c) = "" /\ questions (state c) = [] /\
   currentQuestionIndex (state c) = 0 /\ tasks c = []) /\
  (interviewState (state c) = GETTING_JOB_DESC \/
   interviewState (state c) = GENERATING_QUESTIONS ->
   questions (state c) = [] /\ currentQuestionIndex (state c) = 0) /\
  (interviewState (state c) = GENERATING_QUESTIONS ->
   jobDescription (state c) <> "") /\
  (forall c', handle ClickUseCommonQuestions c = Some c' ->
     interviewState (state c') = INTERVIEWING /\
     questions (state c') = toQuestions PRESET_QUESTIONS /\
     currentQuestionIndex (state c') = 0 /\ tasks c' = []).
Proof.
  intros Hc. apply reachable_session in Hc.
  pose proof (session_phase c Hc) as Hok. unfold phase_ok in Hok.
  split; [|split; [|split]].
  - intros Hph. by rewrite Hph in Hok.
  - intros [Hph | Hph]; rewrite Hph in Hok.
    + by destruct Hok as (? & ? & _).
    + by destruct Hok as (? & ? & _).
  - intros Hph. rewrite Hph in Hok. by destruct Hok as (_ & _ & ? & _).
  - intros c'. simpl. case_decide as Hph; [|done]. intros [= <-].
    rewrite Hph in Hok. destruct Hok as (Hjd & _ & _ & Ht).
    rewrite Hjd. unfold spawn, startInterview. simpl. by rewrite Ht.
Qed.

Lemma idle_phases_are_clean_witness :
  exists c',
    handle ClickUseCommonQuestions (initialConfig true) = Some c' /\
    interviewState (state c') = INTERVIEWING /\
    questions (state c') = toQuestions PRESET_QUESTIONS /\
    currentQuestionIndex (state c') = 0 /\ tasks c' = [].
Proof.
  eexists. split; [reflexivity|].
  destruct (idle_phases_are_clean (initialConfig true)
              (reachable_init true)) as (_ & _ & _ & Hstart).
  exact (Hstart _ eq_refl).
Defined.

(** X11.  Recording only happens in an interview: whenever [isListening]
    is set the phase is [INTERVIEWING], the browser has speech
    recognition and a start time has been recorded. *)
Theorem listening_implies_recording (c : Config) :
  reachable c ->
  isListening (state c) = true ->
  interviewState (state c) = INTERVIEWING /\
  recognitionRef (state c) = true /\
  is_Some (recordingStartTime (state c)).
Proof. intros Hc. apply reachable_session in Hc. by destruct Hc. Qed.

Lemma listening_implies_recording_witness :
  interviewState (state listening_config) = INTERVIEWING /\
  recognitionRef (state listening_config) = true /\
  is_Some (recordingStartTime (state listening_config)).
Proof.
  exact (listening_implies_recording listening_config
           listening_config_reachable eq_refl).
Defined.

(** X12.  One event either keeps the phase or moves it along one of eight
    edges, and each of the eight is taken by some run of the
    application. *)
Theorem phase_moves_along_edges (c : Config) :
  reachable c ->
  (forall e c', handle e c = Some c' ->
     interviewState (state c') = interviewState (state c) \/
     In (interviewState (state c), interviewState (state c')) phase_edges) /\
  Forall (fun edge =>
            exists es e c0 c1,
              handle_all es (initialConfig true) = Some c0 /\
              handle e c0 = Some c1 /\
              (interviewState (state c0), interviewState (state c1)) = edge)
         phase_edges.
Proof.
  intros Hc. apply reachable_session in Hc. split.
  - intros e c' He. by destruct (session_step c e c' Hc He) as (_ & Hedge & _).
  - unfold phase_edges. repeat apply Forall_cons_2; [..|apply Forall_nil_2].
    + exists [], ClickStartWithJobDescription. do 2 eexists.
      split; [reflexivity|]. split; vm_compute; reflexivity.
    + exists [], ClickUseCommonQuestions. do 2 eexists.
      split; [reflexivity|]. split; vm_compute; reflexivity.
    + exists [ClickStartWithJobDescription; ChangeJobDescription "Rust"],
        ClickGenerateQuestionsAndStart. do 2 eexists.
      split; [vm_compute; reflexivity|]. split; vm_compute; reflexivity.
    + exists [ClickStartWithJobDescription; ChangeJobDescription "Rust";
              ClickGenerateQuestionsAndStart],
        (QuestionsSettled 0 (Ok ["Why Rust?"])). do 2 eexists.
      split; [vm_compute; reflexivity|]. split; vm_compute; reflexivity.
    + exists [ClickStartWithJobDescription; ChangeJobDescription "Rust";
              ClickGenerateQuestionsAndStart;
              QuestionsSettled 0 (Ok ["Why Rust?"]); ClickMicrophone 1000;
              RecognitionResult (spoken "it is safe")],
        (ClickMicrophone 4000). do 2 eexists.
      split; [vm_compute; reflexivity|]. split; vm_compute; reflexivity.
    + exists [ClickStartWithJobDescription; ChangeJobDescription "Rust";
              ClickGenerateQuestionsAndStart;
              QuestionsSettled 0 (Ok ["Why Rust?"]); ClickMicrophone 1000],
        (ClickMicrophone 4000). do 2 eexists.
      split; [vm_compute; reflexivity|]. split; vm_compute; reflexivity.
    + exists one_question_run, (FeedbackSettled 0 (Ok example_feedback)).
      do 2 eexists.
      split; [vm_compute; reflexivity|]. split; vm_compute; reflexivity.
    + exists reviewed_run, ClickStartNewInterview. do 2 eexists.
      split; [vm_compute; reflexivity|]. split; vm_compute; reflexivity.
Qed.

Lemma phase_moves_along_edges_witness :
  exists c',
    handle (FeedbackSettled 0 (Ok example_feedback)) pending_config
    = Some c' /\
    (interviewState (state c') = interviewState (state pending_config) \/
     In (interviewState (state pending_config), interviewState (state c'))
        phase_edges).
Proof.
  eexists. split; [reflexivity|].
  destruct (phase_moves_along_edges pending_config pending_config_reachable)
    as [Hstep _].
  exact (Hstep (FeedbackSettled 0 (Ok example_feedback)) _ eq_refl).
Defined.

(** X13.  Within a session the question list is frozen: a step between
    two of the phases [INTERVIEWING], [AWAITING_FEEDBACK], [REVIEWING]
    keeps the number of questions and the id and text of each, never
    changes an answer or duration that is present, and never changes a
    feedback that is present. *)
Theorem questions_frozen_in_session (c : Config) :
  reachable c ->
  forall e c', handle e c = Some c' ->
    in_session (interviewState (state c)) ->
    in_session (interviewState (state c')) ->
    length (questions (state c')) = length (questions (state c)) /\
    forall i q q',
      questions (state c) !! i = Some q ->
      questions (state c') !! i = Some q' ->
      id q' = id q /\ text q' = text q /\
      (is_Some (answer q) ->
       answer q' = answer q /\ audioDuration q' = audioDuration q) /\
      (is_Some (feedback q) -> feedback q' = feedback q).
Proof.
  intros Hc e c' He. apply reachable_session in Hc.
  by destruct (session_step c e c' Hc He) as (_ & _ & Hfrozen).
Qed.

Lemma questions_frozen_in_session_witness :
  exists c',
    handle (ClickMicrophone 5000) first_answer_config = Some c' /\
    length (questions (state c'))
    = length (questions (state first_answer_config)).
Proof.
  eexists. split; [reflexivity|].
  exact (proj1 (questions_frozen_in_session first_answer_config
                  first_answer_config_reachable (ClickMicrophone 5000) _
                  eq_refl (or_introl eq_refl) (or_introl eq_refl))).
Defined.

(** X14.  At most one asynchronous function is suspended at any time:
    none outside [GENERATING_QUESTIONS] and [AWAITING_FEEDBACK]; in
    [GENERATING_QUESTIONS] the generation call for the job description of
    the state; in [AWAITING_FEEDBACK] one feedback call, on a question of
    the list that has a non-empty answer and no feedback yet.  While that
    call is pending no control is enabled: the only events are speech
    callbacks and the settling of that call. *)
Theorem one_pending_call (c : Config) :
  reachable c ->
  length (tasks c) <= 1 /\
  (interviewState (state c) <> GENERATING_QUESTIONS ->
   interviewState (state c) <> AWAITING_FEEDBACK -> tasks c = []) /\
  (interviewState (state c) = GENERATING_QUESTIONS ->
   exists k, tasks c = [AwaitQuestions (jobDescription (state c)) k]) /\
  (interviewState (state c) = AWAITING_FEEDBACK ->
   (exists i q k,
      tasks c = [AwaitFeedback q k] /\
      questions (state c) !! i = Some q /\
      answered q = true /\ feedback q = None) /\
   forall e c', handle e c = Some c' ->
     (exists event, e = RecognitionResult event) \/
     e = UtteranceStart \/ e = UtteranceEnd \/
     exists response, e = FeedbackSettled 0 response).
Proof.
  intros Hc. apply reachable_session in Hc.
  pose proof (session_phase c Hc) as Hok. unfold phase_ok in Hok.
  destruct (interviewState (state c)) eqn:Hph.
  - destruct Hok as (_ & _ & _ & Ht). rewrite Ht. simpl.
    repeat split; (done || lia).
  - destruct Hok as (_ & _ & Ht). rewrite Ht. simpl.
    repeat split; (done || lia).
  - destruct Hok as (_ & _ & _ & k & Ht & _). rewrite Ht. simpl.
    split; [lia|]. split; [done|]. split; [eauto | done].
  - destruct Hok as (Ht & _). rewrite Ht. simpl.
    repeat split; (done || lia).
  - destruct Hok as (_ & n & i & q & Ht & Hq & Ha & _ & Hnone).
    split; [rewrite Ht; simpl; lia|]. split; [done|]. split; [done|].
    intros _. split.
    + exists i, q. eexists. split; [exact Ht|]. split; [done|].
      split; [done|]. by apply (Hnone i).
    + intros e c'. destruct e; simpl; rewrite ?Hph;
        try (case_decide; done); eauto.
      * rewrite Ht. by destruct n0 as [|[|?]].
      * rewrite Ht. destruct n0 as [|[|?]]; [eauto | done..].
  - destruct Hok as (Ht & _). rewrite Ht. simpl.
    repeat split; (done || lia).
Qed.

Lemma one_pending_call_witness :
  exists i q k,
    tasks pending_config = [AwaitFeedback q k] /\
    questions (state pending_config) !! i = Some q /\
    answered q = true /\ feedback q = None.
Proof.
  destruct (one_pending_call pending_config pending_config_reachable)
    as (_ & _ & _ & Hpend).
  destruct (Hpend eq_refl) as [Hcall _]. exact Hcall.
Defined.

(** ** The pipeline always ends *)

Lemma settle_once (s : State) (n i : nat) (q : Question)
    (response : result Feedback) :
  interviewState s = AWAITING_FEEDBACK ->
  questions s !! i = Some q -> answered q = true ->
  i + S n = length (questions s) ->
  exists c1,
    handle (FeedbackSettled 0 response)
      {| state := s;
         tasks := [AwaitFeedback q
                     (fetchFeedback_continuation n i (questions s) q)] |}
    = Some c1 /\
    ((interviewState (state c1) = REVIEWING /\ tasks c1 = []) \/
     exists n' j q',
       n' < n /\
       interviewState (state c1) = AWAITING_FEEDBACK /\
       questions (state c1) !! j = Some q' /\ answered q' = true /\
       j + S n' = length (questions (state c1)) /\
       tasks c1 = [AwaitFeedback q'
                     (fetchFeedback_continuation n' j
                        (questions (state c1)) q')]).
Proof.
  intros Hph Hq Ha Hlen. eexists. split; [reflexivity|].
  unfold resume. simpl. rewrite Hph.
  destruct (getAnswerFeedback (fun _ => response) q) as [f|e];
    unfold fetchFeedback_continuation; simpl.
  - set (updated := <[i:=with_feedback q f]> (questions s)).
    set (s1 := setQuestions updated s).
    destruct (run_loop_cases n (S i) updated s1)
      as [Hrun | (j & q' & n' & Hj & Hq' & Ha' & Hlen' & Hrun)].
    { unfold updated. rewrite length_insert. lia. }
    + rewrite Hrun. rewrite feedbackEffect_awaiting. simpl. by left.
    + rewrite Hrun. rewrite feedbackEffect_awaiting. simpl. right.
      exists n', j, q'. unfold updated in Hlen'.
      rewrite length_insert in Hlen'.
      repeat split; try done; try lia.
      unfold updated. rewrite length_insert. lia.
  - destruct (run_loop_cases n (S i) (questions s) s)
      as [Hrun | (j & q' & n' & Hj & Hq' & Ha' & Hlen' & Hrun)]; [lia| |].
    + rewrite Hrun. rewrite feedbackEffect_awaiting. simpl. by left.
    + rewrite Hrun. rewrite feedbackEffect_awaiting. simpl. right.
      exists n', j, q'. repeat split; try done; lia.
Qed.

Lemma settlements_succ (responses : nat -> result Feedback) (k0 m : nat) :
  settlements responses k0 (S m)
  = FeedbackSettled 0 (responses k0) :: settlements responses (S k0) m.
Proof. reflexivity. Qed.

Lemma handle_all_cons (e : Event) (es : list Event) (c c1 : Config) :
  handle e c = Some c1 -> handle_all (e :: es) c = handle_all es c1.
Proof. intros H. simpl. by rewrite H. Qed.

Lemma settle_terminates (responses : nat -> result Feedback) :
  forall n i s q k0,
    interviewState s = AWAITING_FEEDBACK ->
    questions s !! i = Some q -> answered q = true ->
    i + S n = length (questions s) ->
    exists m c',
      1 <= m <= S n /\
      handle_all (settlements responses k0 m)
        {| state := s;
           tasks := [AwaitFeedback q
                       (fetchFeedback_continuation n i (questions s) q)] |}
      = Some c' /\
      interviewState (state c') = REVIEWING /\ tasks c' = [].
Proof.
  induction n as [n IH] using lt_wf_ind. intros i s q k0 Hph Hq Ha Hlen.
  destruct (settle_once s n i q (responses k0) Hph Hq Ha Hlen)
    as (c1 & Hstep & [[Hrev Ht] | (n' & j & q' & Hn' & Hph1 & Hq1 & Ha1
                                   & Hlen1 & Ht1)]).
  - exists 1, c1. split; [lia|]. split; [|done].
    by rewrite settlements_succ, (handle_all_cons _ _ _ _ Hstep).
  - destruct c1 as [s1 ts1]. simpl in Hph1, Hq1, Hlen1, Ht1. subst ts1.
    destruct (IH n' Hn' j s1 q' (S k0) Hph1 Hq1 Ha1 Hlen1)
      as (m & c' & Hm & Hall & Hrev & Ht).
    exists (S m), c'. split; [lia|]. split; [|done].
    by rewrite settlements_succ, (handle_all_cons _ _ _ _ Hstep).
Qed.

(** X15.  The pipeline always ends.  From every reachable configuration
    in phase [AWAITING_FEEDBACK], whatever the responses are, settling the
    pending call at most as many times as there are questions (and at
    least once) leads to phase [REVIEWING] with nothing pending. *)
Theorem pipeline_terminates (c : Config)
    (responses : nat -> result Feedback) :
  reachable c ->
  interviewState (state c) = AWAITING_FEEDBACK ->
  exists m c',
    1 <= m <= length (questions (state c)) /\
    handle_all (settlements responses 0 m) c = Some c' /\
    interviewState (state c') = REVIEWING /\ tasks c' = [].
Proof.
  intros Hc Hph. apply reachable_session in Hc.
  pose proof (session_phase c Hc) as Hok. unfold phase_ok in Hok.
  rewrite Hph in Hok.
  destruct Hok as (_ & n & i & q & Ht & Hq & Ha & Hlen & _).
  destruct c as [s ts]. simpl in *. subst ts.
  destruct (settle_terminates responses n i s q 0 Hph Hq Ha Hlen)
    as (m & c' & Hm & Hall & Hrev & Ht).
  exists m, c'. split; [lia | done].
Qed.

Lemma pipeline_terminates_witness :
  exists m c',
    1 <= m <= length (questions (state pending_config)) /\
    handle_all (settlements (fun _ => Err (AnalysisFailure "503")) 0 m)
      pending_config = Some c' /\
    interviewState (state c') = REVIEWING /\ tasks c' = [].
Proof.
  exact (pipeline_terminates pending_config
           (fun _ => Err (AnalysisFailure "503"))
           pending_config_reachable eq_refl).
Defined.

(** ** Without speech recognition *)

Lemma unsupported_config_reachable : reachable unsupported_config.
Proof.
  apply (handle_all_reachable
           [ClickUseCommonQuestions; ClickMicrophone 1000]
           (initialConfig false));
    [apply reachable_init | vm_compute; reflexivity].
Qed.

(** X16.  In a browser without speech recognition nothing is ever
    recorded: in every reachable configuration [isListening] is unset,
    the index is 0, no question has an answer, a duration or feedback,
    the phase is never [AWAITING_FEEDBACK] or [REVIEWING], and the
    microphone button changes nothing. *)
Theorem unsupported_never_records (c : Config) :
  reachable c ->
  recognitionRef (state c) = false ->
  isListening (state c) = false /\
  currentQuestionIndex (state c) = 0 /\
  interviewState (state c) <> AWAITING_FEEDBACK /\
  interviewState (state c) <> REVIEWING /\
  (forall i q, questions (state c) !! i = Some q ->
     answer q = None /\ audioDuration q = None /\ feedback q = None) /\
  (forall now c', handle (ClickMicrophone now) c = Some c' -> c' = c).
Proof.
  intros Hc Href.
  pose proof (reachable_invariant c Hc) as (_ & _ & Hatom & _).
  apply reachable_session in Hc.
  destruct (session_unsupported c Hc Href) as (Hi & Hna & Hnr).
  assert (Hl : isListening (state c) = false).
  { destruct (isListening (state c)) eqn:Hl; [|done].
    destruct (session_listening c Hc Hl) as (_ & Hr & _). congruence. }
  split; [done|]. split; [done|]. split; [done|]. split; [done|].
  pose proof (session_phase c Hc) as Hok. unfold phase_ok in Hok.
  split.
  - intros i q Hq.
    assert (Ha : answer q = None /\ feedback q = None).
    { destruct (interviewState (state c)) eqn:Hph; try done.
      - destruct Hok as (_ & Hqs & _). by rewrite Hqs in Hq.
      - destruct Hok as (Hqs & _). by rewrite Hqs in Hq.
      - destruct Hok as (Hqs & _). by rewrite Hqs in Hq.
      - destruct Hok as (_ & Hnone).
        destruct (Hnone i q Hq) as (Hf & _ & Hn).
        split; [apply Hn; lia | done]. }
    destruct Ha as [Ha Hf]. split; [done|]. split; [|done].
    pose proof (Forall_lookup_1 _ _ _ _ Hatom Hq) as [_ H2].
    destruct (audioDuration q); [|done].
    destruct H2 as [a Ha']; [eauto | congruence].
  - intros now c'. simpl. case_decide; [|done].
    destruct (questions (state c) !! _); [|done].
    destruct (isSpeaking _); [done|]. rewrite Hl. intros [= <-].
    rewrite update_same_phase
      by (unfold startListening; by rewrite Href).
    unfold startListening. rewrite Href. by destruct c.
Qed.

Lemma unsupported_never_records_witness :
  recognitionRef (state unsupported_config) = false /\
  interviewState (state unsupported_config) = INTERVIEWING /\
  isListening (state unsupported_config) = false.
Proof.
  split; [reflexivity|]. split; [reflexivity|].
  exact (proj1 (unsupported_never_records unsupported_config
                  unsupported_config_reachable eq_refl)).
Defined.

(** ** Edge cases of a capture and of a reset *)

Lemma falsy_duration_default (q : Question) (a : string) (d : number) :
  truthy_number d = false ->
  wordsPerMinute (with_answer q a d) = 150%float.
Proof. intros Hd. unfold wordsPerMinute. simpl. by rewrite Hd. Qed.

(** X18.  A capture without elapsed time gets the default pace: when
    [stopListening] reads the same clock value as [startListening], or the
    start time is absent or 0, the stored duration is 0, the pace
    expression of [getAnswerFeedback] evaluates to 150, and for a
    non-empty answer the prompt carries 150 words per minute, whatever
    was said. *)
Theorem instant_capture_gets_default_pace
    (q : Question) (a : string) (t0 t1 : Z) :
  forall d,
    In d [duration (Some t0) t0; duration None t1; duration (Some 0%Z) t1] ->
    d = 0%float /\
    wordsPerMinute (with_answer q a d) = 150%float /\
    (truthy_string a = true ->
     getAnswerFeedback_prompt (with_answer q a d)
     = Ok {| prompt_wordsPerMinute := 150%float;
             prompt_question := text q;
             prompt_answer := a |}).
Proof.
  intros d Hd.
  assert (H0 : d = 0%float).
  { simpl in Hd. destruct Hd as [<- | [<- | [<- | []]]]; [|done|done].
    unfold duration. rewrite Z.sub_diag. by destruct (t0 =? 0)%Z. }
  subst d. split; [done|].
  assert (Hw : wordsPerMinute (with_answer q a 0%float) = 150%float)
    by (by apply falsy_duration_default).
  split; [done|]. intros Ha.
  unfold getAnswerFeedback_prompt.
  change (answer (with_answer q a 0%float)) with (Some a).
  change (text (with_answer q a 0%float)) with (text q).
  cbv iota. by rewrite Ha, Hw.
Qed.

Lemma instant_capture_gets_default_pace_witness :
  In (duration (Some 5%Z) 5%Z)
     [duration (Some 5%Z) 5%Z; duration None 7%Z; duration (Some 0%Z) 7%Z] /\
  wordsPerMinute
    (with_answer
       {| id := 0; text := "Why Rust?"; answer := None;
          feedback := None; audioDuration := None |}
       "it is safe. " (duration (Some 5%Z) 5%Z))
  = 150%float.
Proof.
  split; [by left|].
  exact (proj1 (proj2 (instant_capture_gets_default_pace
                         _ "it is safe. " 5%Z 7%Z _ (or_introl eq_refl)))).
Defined.

(** X19.  "Start a New Interview" is only offered in the report, and it
    brings the application back to its state at mount, with nothing
    pending; the only cells that may differ from a fresh mount are the
    speaking flag and the last recording start time, which
    [resetInterview] does not touch. *)
Theorem reset_restores_initial_state (c c' : Config) :
  reachable c ->
  handle ClickStartNewInterview c = Some c' ->
  interviewState (state c) = REVIEWING /\
  tasks c' = [] /\
  state c'
  = setRecordingStartTime (recordingStartTime (state c))
      (setIsSpeaking (isSpeaking (state c))
         (initialState (recognitionRef (state c)))).
Proof.
  intros Hc. apply reachable_session in Hc. simpl.
  case_decide as Hph; [|done]. intros [= <-].
  rewrite update_not_awaiting by done. simpl.
  pose proof (session_phase c Hc) as Hok. unfold phase_ok in Hok.
  rewrite Hph in Hok. destruct Hok as [Ht _].
  assert (Hl : isListening (state c) = false)
    by (apply not_listening_outside_interview; [done | congruence]).
  split; [done|]. split; [done|].
  destruct c as [s ts]. destruct s. simpl in *. by subst.
Qed.

Lemma reset_restores_initial_state_witness :
  exists c',
    handle ClickStartNewInterview reviewed_config = Some c' /\
    questions (state c') = [] /\ tasks c' = [].
Proof.
  eexists. split; [reflexivity|].
  destruct (reset_restores_initial_state reviewed_config _
              reviewed_config_reachable eq_refl) as (_ & Ht & Hs).
  split; [by rewrite Hs | exact Ht].
Defined.
